(** * x-math: planar geometry values (Coordinate, Size, Rect, Box)

    A shallow embedding of [rect.js], [box.js], [size.js] and
    [coordinate.js].

    The JavaScript sources compute on the language's [number] type,
    binary64.  Every function below is written once, over an interface
    [Number] of the operations the sources use, and read in two ways:

    - over the kernel's binary64 floats, which are JavaScript's numbers with
      their rounding, infinities, NaN and signed zeros: this is the reading
      of the code;
    - over the real numbers [R], where arithmetic is exact.

    What is proved for every [Number] holds of the code.  The comparisons of
    binary64 are those of the integers through [Binary64.rank], so the laws
    of order are proved of the code, for numbers that are not NaN.
    Arithmetic rounds: a law of exact arithmetic is proved of the runs in
    which no operation rounds ([Exact]), where the binary64 run computes the
    values of the real run. *)

From Stdlib Require Import Floats.PrimFloat Floats.SpecFloat Floats.FloatOps
  Floats.FloatAxioms.
From Stdlib Require Import ZArith Lia.
From Stdlib Require Import Reals Lra Bool List.
From stdpp Require Import base option gmap.
Import ListNotations.

(** ** The numbers of the sources *)

Class Number (N : Type) : Type := {
  num_zero : N;
  num_one : N;
  num_add : N -> N -> N;
  num_sub : N -> N -> N;
  num_mul : N -> N -> N;
  num_div : N -> N -> N;
  num_sqrt : N -> N;            (* Math.sqrt *)
  num_leb : N -> N -> bool;     (* x <= y *)
  num_ltb : N -> N -> bool;     (* x < y *)
  num_eqb : N -> N -> bool;     (* x == y *)
  num_max : N -> N -> N;        (* Math.max *)
  num_min : N -> N -> N;        (* Math.min *)
  num_truthy : N -> bool        (* ToBoolean: the test of [if (x)], [!x], [x || d] *)
}.

Declare Scope num_scope.
Delimit Scope num_scope with num.
Infix "+" := num_add : num_scope.
Infix "-" := num_sub : num_scope.
Infix "*" := num_mul : num_scope.
Infix "/" := num_div : num_scope.
Infix "<=?" := num_leb (at level 70, no associativity) : num_scope.
Infix "<?" := num_ltb (at level 70, no associativity) : num_scope.
Infix "==?" := num_eqb (at level 70, no associativity) : num_scope.
Notation "x >? y" := (num_ltb y x)
  (at level 70, no associativity, only parsing) : num_scope.
Notation "x >=? y" := (num_leb y x)
  (at level 70, no associativity, only parsing) : num_scope.

(** Exact arithmetic: the numbers that binary64 rounds to.  There is no
    NaN, no infinity and one zero; [x / 0] and [sqrt] of a negative number
    have no JavaScript meaning here.  A law proved at this instance only is
    a law of the code as far as the code's arithmetic is exact. *)
Definition Rleb (x y : R) : bool := if Rle_dec x y then true else false.
Definition Rltb (x y : R) : bool := if Rlt_dec x y then true else false.
Definition Reqb (x y : R) : bool := if Req_dec_T x y then true else false.

#[global] Instance Number_R : Number R := {|
  num_zero := 0%R;
  num_one := 1%R;
  num_add := Rplus;
  num_sub := Rminus;
  num_mul := Rmult;
  num_div := Rdiv;
  num_sqrt := R_sqrt.sqrt;
  num_leb := Rleb;
  num_ltb := Rltb;
  num_eqb := Reqb;
  num_max := Rmax;
  num_min := Rmin;
  num_truthy := fun x => negb (Reqb x 0%R)
|}.

(** Binary64.  [Math.max] and [Math.min] answer NaN as soon as one argument
    is NaN and order [-0] below [+0]; [0], [-0] and NaN are the falsy
    numbers. *)
Definition float_max (x y : float) : float :=
  if PrimFloat.is_nan x || PrimFloat.is_nan y then PrimFloat.nan
  else if PrimFloat.ltb x y then y
  else if PrimFloat.ltb y x then x
  else if PrimFloat.get_sign x then y else x.

Definition float_min (x y : float) : float :=
  if PrimFloat.is_nan x || PrimFloat.is_nan y then PrimFloat.nan
  else if PrimFloat.ltb x y then x
  else if PrimFloat.ltb y x then y
  else if PrimFloat.get_sign x then x else y.

#[global] Instance Number_float : Number float := {|
  num_zero := PrimFloat.zero;
  num_one := PrimFloat.one;
  num_add := PrimFloat.add;
  num_sub := PrimFloat.sub;
  num_mul := PrimFloat.mul;
  num_div := PrimFloat.div;
  num_sqrt := PrimFloat.sqrt;
  num_leb := PrimFloat.leb;
  num_ltb := PrimFloat.ltb;
  num_eqb := PrimFloat.eqb;
  num_max := float_max;
  num_min := float_min;
  num_truthy := fun x => negb (PrimFloat.is_zero x || PrimFloat.is_nan x)
|}.

(** Modelled from the spec: [XMath.isNumber], the test the sources apply to
    an optional argument ([scale(sx, sy?)]: "sy defaults to sx when
    omitted").  An optional argument is an [option]; the test holds of an
    argument that was passed. *)
Definition isNumber {N : Type} (opt : option N) : bool :=
  match opt with Some _ => true | None => false end.

(** The literal [2] of the sources. *)
Definition num_two {N : Type} `{Number N} : N := num_add num_one num_one.

(** References, as [==] compares them: [None] is [null] and [Some (l, v)]
    is the object at the reference [l], whose fields are [v].  [a == b]
    holds of two [null]s and of one object taken twice, whatever its
    fields. *)
Definition same_reference {A : Type} (a b : option (positive * A)) : bool :=
  match a, b with
  | None, None => true
  | Some (l, _), Some (l', _) => Pos.eqb l l'
  | _, _ => false
  end.

(** ** coordinate.js *)

Module Coordinate.

Record t (N : Type) : Type := mk { x : N; y : N }.
Arguments mk {N} _ _.
Arguments x {N} _.
Arguments y {N} _.

Section Values.
Context {N : Type} `{Number N}.
Local Open Scope num_scope.

(** [opt_x || 0]: the argument when it was passed and is truthy. *)
Definition or_zero (opt : option N) : N :=
  match opt with
  | Some v => if num_truthy v then v else num_zero
  | None => num_zero
  end.

(** [new Coordinate(opt_x, opt_y)] *)
Definition new (opt_x opt_y : option N) : t N :=
  mk (or_zero opt_x) (or_zero opt_y).

(** [Coordinate.prototype.scale]: the receiver after the call, which is also
    the value returned. *)
Definition scale (this : t N) (sx : N) (opt_sy : option N) : t N :=
  let sy := if isNumber opt_sy then default sx opt_sy else sx in
  mk (x this * sx) (y this * sy).

Definition magnitude (this : t N) : N :=
  num_sqrt (x this * x this + y this * y this).

Definition normalize (this : t N) : t N :=
  scale this (num_one / magnitude this) None.

Definition clone (this : t N) : t N := new (Some (x this)) (Some (y this)).

(** [Coordinate.equals(a, b)] on two references. *)
Definition equals (a b : option (positive * t N)) : bool :=
  if same_reference a b then true
  else
    match a, b with
    | Some (_, a), Some (_, b) => (x a ==? x b) && (y a ==? y b)
    | _, _ => false
    end.

Definition toJSON (this : t N) : list N := [x this; y this].

Definition distance (a b : t N) : N :=
  let dx := x a - x b in
  let dy := y a - y b in
  num_sqrt (dx * dx + dy * dy).

Definition squaredDistance (a b : t N) : N :=
  let dx := x a - x b in
  let dy := y a - y b in
  dx * dx + dy * dy.

Definition difference (a b : t N) : t N :=
  new (Some (x a - x b)) (Some (y a - y b)).

Definition sum (a b : t N) : t N :=
  new (Some (x a + x b)) (Some (y a + y b)).

(** [Coordinate.prototype.translate(tx, opt_ty)]: [tx] is a Coordinate or a
    number. *)
Definition translate (this : t N) (tx : t N + N) (opt_ty : option N) : t N :=
  match tx with
  | inl c => mk (x this + x c) (y this + y c)
  | inr n =>
      mk (x this + n)
         (match opt_ty with
          | Some ty => if isNumber opt_ty then y this + ty else y this
          | None => y this
          end)
  end.

Definition squaredMagnitude (this : t N) : N :=
  x this * x this + y this * y this.

Definition add (this b : t N) : t N := mk (x this + x b) (y this + y b).

Definition subtract (this b : t N) : t N := mk (x this - x b) (y this - y b).

Definition multiply (this b : t N) : t N := mk (x this * x b) (y this * y b).

Definition prototype_min (this b : t N) : t N :=
  mk (num_min (x this) (x b)) (num_min (y this) (y b)).

Definition prototype_max (this b : t N) : t N :=
  mk (num_max (x this) (x b)) (num_max (y this) (y b)).

Definition prototype_clamp (this min max : t N) : t N :=
  mk (num_min (num_max (x this) (x min)) (x max))
     (num_min (num_max (y this) (y min)) (y max)).

Definition dot (a b : t N) : N := x a * x b + y a * y b.

Definition max (a b : t N) : t N :=
  new (Some (num_max (x a) (x b))) (Some (num_max (y a) (y b))).

Definition min (a b : t N) : t N :=
  new (Some (num_min (x a) (x b))) (Some (num_min (y a) (y b))).

Definition clamp (a min max : t N) : t N :=
  new (Some (num_min (num_max (x a) (x min)) (x max)))
      (Some (num_min (num_max (y a) (y min)) (y max))).

End Values.
End Coordinate.

(** ** size.js *)

Module Size.

Record t (N : Type) : Type := mk { width : N; height : N }.
Arguments mk {N} _ _.
Arguments width {N} _.
Arguments height {N} _.

Section Values.
Context {N : Type} `{Number N}.
Local Open Scope num_scope.

Definition aspectRatio (this : t N) : N := width this / height this.

Definition scale (this : t N) (sx : N) (opt_sy : option N) : t N :=
  let sy := if isNumber opt_sy then default sx opt_sy else sx in
  mk (width this * sx) (height this * sy).

Definition scaleToFit (this target : t N) : t N :=
  let s := if aspectRatio this >? aspectRatio target
           then width target / width this
           else height target / height this in
  scale this s None.

(** [Size.equals(a, b)] on two references. *)
Definition equals (a b : option (positive * t N)) : bool :=
  if same_reference a b then true
  else
    match a, b with
    | Some (_, a), Some (_, b) =>
        (width a ==? width b) && (height a ==? height b)
    | _, _ => false
    end.

Definition toJSON (this : t N) : list N := [width this; height this].

Definition clone (this : t N) : t N := mk (width this) (height this).

Definition toCoordinate (this : t N) : Coordinate.t N :=
  Coordinate.new (Some (width this)) (Some (height this)).

Definition createFromCoordinate (coordinate : Coordinate.t N) : t N :=
  mk (Coordinate.x coordinate) (Coordinate.y coordinate).

Definition getLongest (this : t N) : N := num_max (width this) (height this).

Definition getShortest (this : t N) : N := num_min (width this) (height this).

Definition area (this : t N) : N := width this * height this.

Definition perimeter (this : t N) : N := (width this + height this) * num_two.

Definition isEmpty (this : t N) : bool := negb (num_truthy (area this)).

Definition fitsInside (this target : t N) : bool :=
  (width this <=? width target) && (height this <=? height target).

End Values.
End Size.

(** ** box.js *)

Module Box.

Record t (N : Type) : Type := mk { top : N; right : N; bottom : N; left : N }.
Arguments mk {N} _ _ _ _.
Arguments top {N} _.
Arguments right {N} _.
Arguments bottom {N} _.
Arguments left {N} _.

(** The second argument of [Box.contains]: a Box or a Coordinate. *)
Inductive other (N : Type) : Type :=
| OfBox (b : t N)
| OfCoordinate (c : Coordinate.t N).
Arguments OfBox {N} _.
Arguments OfCoordinate {N} _.

Section Values.
Context {N : Type} `{Number N}.
Local Open Scope num_scope.

(** [Box.contains(box, other)]; [None] is [null]. *)
Definition contains (box : option (t N)) (o : option (other N)) : bool :=
  match box, o with
  | Some box, Some (OfBox b) =>
      (left b >=? left box) && (right b <=? right box) &&
      (top b >=? top box) && (bottom b <=? bottom box)
  | Some box, Some (OfCoordinate c) =>
      (Coordinate.x c >=? left box) && (Coordinate.x c <=? right box) &&
      (Coordinate.y c >=? top box) && (Coordinate.y c <=? bottom box)
  | _, _ => false
  end.

Definition relativePositionX (box : t N) (coord : Coordinate.t N) : N :=
  if Coordinate.x coord <? left box then Coordinate.x coord - left box
  else if Coordinate.x coord >? right box then Coordinate.x coord - right box
  else num_zero.

Definition relativePositionY (box : t N) (coord : Coordinate.t N) : N :=
  if Coordinate.y coord <? top box then Coordinate.y coord - top box
  else if Coordinate.y coord >? bottom box then Coordinate.y coord - bottom box
  else num_zero.

Definition distance (box : t N) (coord : Coordinate.t N) : N :=
  let x := relativePositionX box coord in
  let y := relativePositionY box coord in
  num_sqrt (x * x + y * y).

(** [Box.boundingBox(var_args)]: [arguments] is the list of the Coordinates
    passed.  With none, [arguments[0]] is [undefined] and reading its [y]
    throws: [None]. *)
Definition boundingBox (arguments : list (Coordinate.t N)) : option (t N) :=
  match arguments with
  | [] => None
  | first :: rest =>
      Some (fold_left
              (fun box coord =>
                 mk (num_min (top box) (Coordinate.y coord))
                    (num_max (right box) (Coordinate.x coord))
                    (num_max (bottom box) (Coordinate.y coord))
                    (num_min (left box) (Coordinate.x coord)))
              rest
              (mk (Coordinate.y first) (Coordinate.x first)
                  (Coordinate.y first) (Coordinate.x first)))
  end.

Definition createAtOffset (offset : Coordinate.t N) (size : Size.t N) : t N :=
  mk (Coordinate.y offset)
     (Coordinate.x offset + Size.width size)
     (Coordinate.y offset + Size.height size)
     (Coordinate.x offset).

Definition createAroundCenter (center : Coordinate.t N) (size : Size.t N) : t N :=
  let w := Size.width size / num_two in
  let h := Size.height size / num_two in
  mk (Coordinate.y center - h) (Coordinate.x center + w)
     (Coordinate.y center + h) (Coordinate.x center - w).

Definition topLeft (this : t N) : Coordinate.t N :=
  Coordinate.new (Some (left this)) (Some (top this)).

Definition topRight (this : t N) : Coordinate.t N :=
  Coordinate.new (Some (right this)) (Some (top this)).

Definition bottomLeft (this : t N) : Coordinate.t N :=
  Coordinate.new (Some (left this)) (Some (bottom this)).

Definition bottomRight (this : t N) : Coordinate.t N :=
  Coordinate.new (Some (right this)) (Some (bottom this)).

Definition clone (this : t N) : t N :=
  mk (top this) (right this) (bottom this) (left this).

(** [Box.prototype.contains] *)
Definition prototype_contains (this : t N) (o : option (other N)) : bool :=
  contains (Some this) o.

(** [Box.prototype.expandToInclude]: the receiver after the call.  Each
    statement reads and writes one field, so the result is the same when
    [box] is the receiver itself. *)
Definition expandToInclude (this box : t N) : t N :=
  mk (num_min (top this) (top box))
     (num_max (right this) (right box))
     (num_max (bottom this) (bottom box))
     (num_min (left this) (left box)).

Definition area (this : t N) : N :=
  (right this - left this) * (bottom this - top this).

(** [Box.equals(a, b)] on two references. *)
Definition equals (a b : option (positive * t N)) : bool :=
  if same_reference a b then true
  else
    match a, b with
    | Some (_, a), Some (_, b) =>
        (top a ==? top b) && (right a ==? right b) &&
        (bottom a ==? bottom b) && (left a ==? left b)
    | _, _ => false
    end.

Definition toJSON (this : t N) : list N :=
  [top this; right this; bottom this; left this].

Definition intersects (a b : t N) : bool :=
  (left a <=? right b) && (left b <=? right a) &&
  (top a <=? bottom b) && (top b <=? bottom a).

Definition intersectsWithPadding (a b : t N) (padding : N) : bool :=
  (left a <=? right b + padding) && (left b <=? right a + padding) &&
  (top a <=? bottom b + padding) && (top b <=? bottom a + padding).

End Values.
End Box.

(** ** rect.js, on values *)

Module Rect.

Record t (N : Type) : Type := mk { left : N; top : N; width : N; height : N }.
Arguments mk {N} _ _ _ _.
Arguments left {N} _.
Arguments top {N} _.
Arguments width {N} _.
Arguments height {N} _.

Section Values.
Context {N : Type} `{Number N}.
Local Open Scope num_scope.

Definition clone (this : t N) : t N :=
  mk (left this) (top this) (width this) (height this).

Definition toBox (this : t N) : Box.t N :=
  let right := left this + width this in
  let bottom := top this + height this in
  Box.mk (top this) right bottom (left this).

Definition createFromBox (box : Box.t N) : t N :=
  mk (Box.left box) (Box.top box)
     (Box.right box - Box.left box) (Box.bottom box - Box.top box).

(** [Rect.equals(a, b)] on two references. *)
Definition equals (a b : option (positive * t N)) : bool :=
  if same_reference a b then true
  else
    match a, b with
    | Some (_, a), Some (_, b) =>
        (left a ==? left b) && (width a ==? width b) &&
        (top a ==? top b) && (height a ==? height b)
    | _, _ => false
    end.

(** The static [Rect.intersection(a, b)]; [None] is [null]. *)
Definition intersection (a b : t N) : option (t N) :=
  let x0 := num_max (left a) (left b) in
  let x1 := num_min (left a + width a) (left b + width b) in
  if x0 <=? x1 then
    let y0 := num_max (top a) (top b) in
    let y1 := num_min (top a + height a) (top b + height b) in
    if y0 <=? y1 then Some (mk x0 y0 (x1 - x0) (y1 - y0)) else None
  else None.

Definition intersects (a b : t N) : bool :=
  (left a <=? left b + width b) && (left b <=? left a + width a) &&
  (top a <=? top b + height b) && (top b <=? top a + height a).

Definition area (this : t N) : N := width this * height this.

(** [!intersection || !intersection.height || !intersection.width] *)
Definition unaffected (intersection : option (t N)) : bool :=
  match intersection with
  | None => true
  | Some i => negb (num_truthy (height i)) || negb (num_truthy (width i))
  end.

(** The static [Rect.difference(a, b)]: the array it returns. *)
Definition difference (a b : t N) : list (t N) :=
  let intersection := intersection a b in
  if unaffected intersection then [clone a]
  else
    let result := [] in
    let top0 := top a in
    let height0 := height a in
    let ar := left a + width a in
    let ab := top a + height a in
    let br := left b + width b in
    let bb := top b + height b in
    let '(result, top1, height1) :=
      if top b >? top a
      then (result ++ [mk (left a) (top a) (width a) (top b - top a)],
            top b, height0 - (top b - top a))
      else (result, top0, height0) in
    let '(result, height2) :=
      if bb <? ab
      then (result ++ [mk (left a) bb (width a) (ab - bb)], bb - top1)
      else (result, height1) in
    let result :=
      if left b >? left a
      then result ++ [mk (left a) top1 (left b - left a) height2]
      else result in
    let result :=
      if br <? ar
      then result ++ [mk br top1 (ar - br) height2]
      else result in
    result.

Definition createAtOffset (offset : Coordinate.t N) (size : Size.t N) : t N :=
  mk (Coordinate.x offset) (Coordinate.y offset)
     (Size.width size) (Size.height size).

Definition createAroundCenter (center : Coordinate.t N) (size : Size.t N) : t N :=
  mk (Coordinate.x center - Size.width size / num_two)
     (Coordinate.y center - Size.height size / num_two)
     (Size.width size) (Size.height size).

Definition toJSON (this : t N) : list N :=
  [left this; top this; width this; height this].

(** [Rect.prototype.intersects] *)
Definition prototype_intersects (this rect : t N) : bool := intersects this rect.

(** [Rect.prototype.boundingRect]: the receiver after the call.  The run on
    objects below gives the same result when [rect] is the receiver. *)
Definition prototype_boundingRect (this rect : t N) : t N :=
  let right := num_max (left this + width this) (left rect + width rect) in
  let bottom := num_max (top this + height this) (top rect + height rect) in
  let left' := num_min (left this) (left rect) in
  let top' := num_min (top this) (top rect) in
  mk left' top' (right - left') (bottom - top').

(** The static [Rect.boundingRect(a, b)]; [None] is [null]. *)
Definition boundingRect (a b : option (t N)) : option (t N) :=
  match a, b with
  | Some a, Some b =>
      let clone := clone a in
      Some (prototype_boundingRect clone b)
  | _, _ => None
  end.

(** The argument of [Rect.prototype.contains]: a Rect, or else a
    Coordinate. *)
Inductive another : Type :=
| OfRect (r : t N)
| OfCoordinate (c : Coordinate.t N).

Definition contains (this : t N) (o : another) : bool :=
  match o with
  | OfRect another =>
      (left this <=? left another) &&
      (left this + width this >=? left another + width another) &&
      (top this <=? top another) &&
      (top this + height this >=? top another + height another)
  | OfCoordinate another =>
      (Coordinate.x another >=? left this) &&
      (Coordinate.x another <=? left this + width this) &&
      (Coordinate.y another >=? top this) &&
      (Coordinate.y another <=? top this + height this)
  end.

Definition offset (this : t N) : Coordinate.t N :=
  Coordinate.new (Some (left this)) (Some (top this)).

Definition getSize (this : t N) : Size.t N := Size.mk (width this) (height this).

(** [Rect.prototype.translate(tx, opt_ty)]: [tx] is a Coordinate or a
    number. *)
Definition translate (this : t N) (tx : Coordinate.t N + N) (opt_ty : option N)
    : t N :=
  match tx with
  | inl c =>
      mk (left this + Coordinate.x c) (top this + Coordinate.y c)
         (width this) (height this)
  | inr n =>
      mk (left this + n)
         (match opt_ty with
          | Some ty => if isNumber opt_ty then top this + ty else top this
          | None => top this
          end)
         (width this) (height this)
  end.

Definition scale (this : t N) (sx : N) (opt_sy : option N) : t N :=
  let sy := if isNumber opt_sy then default sx opt_sy else sx in
  mk (left this * sx) (top this * sy) (width this * sx) (height this * sy).

End Values.
End Rect.

(** ** rect.js, on objects

    A [Rect] instance is a mutable object: [a.intersection(b)] overwrites
    the fields of [a], the static functions allocate, and nothing stops a
    caller from passing one object twice.  The store maps references to the
    fields of the instances; a property access through a reference that is
    not an instance stops the run ([None], the TypeError of the runtime). *)

Module RectObj.

Definition loc : Type := positive.

Section Store.
Context {N : Type} `{Number N}.
Local Open Scope num_scope.

Definition M (A : Type) : Type :=
  gmap loc (Rect.t N) -> option (A * gmap loc (Rect.t N)).

#[global] Instance M_ret : MRet M := fun A v st => Some (v, st).
#[global] Instance M_bind : MBind M := fun A B k m st =>
  match m st with
  | Some (v, st') => k v st'
  | None => None
  end.

(** [o.f] *)
Definition get (f : Rect.t N -> N) (o : loc) : M N := fun st =>
  match st !! o with
  | Some r => Some (f r, st)
  | None => None
  end.

(** [o.f = v] *)
Definition set (upd : N -> Rect.t N -> Rect.t N) (o : loc) (v : N) : M unit :=
  fun st =>
    match st !! o with
    | Some r => Some (tt, <[o := upd v r]> st)
    | None => None
    end.

Definition with_left (v : N) (r : Rect.t N) : Rect.t N :=
  Rect.mk v (Rect.top r) (Rect.width r) (Rect.height r).
Definition with_top (v : N) (r : Rect.t N) : Rect.t N :=
  Rect.mk (Rect.left r) v (Rect.width r) (Rect.height r).
Definition with_width (v : N) (r : Rect.t N) : Rect.t N :=
  Rect.mk (Rect.left r) (Rect.top r) v (Rect.height r).
Definition with_height (v : N) (r : Rect.t N) : Rect.t N :=
  Rect.mk (Rect.left r) (Rect.top r) (Rect.width r) v.

(** [new Rect(x, y, w, h)]: a reference the store does not hold yet. *)
Definition new (x y w h : N) : M loc := fun st =>
  let o := fresh (dom st) in
  Some (o, <[o := Rect.mk x y w h]> st).

Definition clone (this : loc) : M loc :=
  l ← get Rect.left this; t ← get Rect.top this;
  w ← get Rect.width this; h ← get Rect.height this;
  new l t w h.

(** [Rect.prototype.intersection] *)
Definition prototype_intersection (this rect : loc) : M bool :=
  tl ← get Rect.left this; rl ← get Rect.left rect;
  let x0 := num_max tl rl in
  tl ← get Rect.left this; tw ← get Rect.width this;
  rl ← get Rect.left rect; rw ← get Rect.width rect;
  let x1 := num_min (tl + tw) (rl + rw) in
  if x0 <=? x1 then
    tt_ ← get Rect.top this; rt ← get Rect.top rect;
    let y0 := num_max tt_ rt in
    tt_ ← get Rect.top this; th ← get Rect.height this;
    rt ← get Rect.top rect; rh ← get Rect.height rect;
    let y1 := num_min (tt_ + th) (rt + rh) in
    if y0 <=? y1 then
      set with_left this x0;;
      set with_top this y0;;
      set with_width this (x1 - x0);;
      set with_height this (y1 - y0);;
      mret true
    else mret false
  else mret false.

(** The static [Rect.intersection]; [None] is [null]. *)
Definition intersection (a b : loc) : M (option loc) :=
  al ← get Rect.left a; bl ← get Rect.left b;
  let x0 := num_max al bl in
  al ← get Rect.left a; aw ← get Rect.width a;
  bl ← get Rect.left b; bw ← get Rect.width b;
  let x1 := num_min (al + aw) (bl + bw) in
  if x0 <=? x1 then
    at_ ← get Rect.top a; bt ← get Rect.top b;
    let y0 := num_max at_ bt in
    at_ ← get Rect.top a; ah ← get Rect.height a;
    bt ← get Rect.top b; bh ← get Rect.height b;
    let y1 := num_min (at_ + ah) (bt + bh) in
    if y0 <=? y1 then
      r ← new x0 y0 (x1 - x0) (y1 - y0); mret (Some r)
    else mret None
  else mret None.

(** [!intersection || !intersection.height || !intersection.width] *)
Definition unaffected (intersection : option loc) : M bool :=
  match intersection with
  | None => mret true
  | Some i =>
      h ← get Rect.height i;
      if negb (num_truthy h) then mret true
      else w ← get Rect.width i; mret (negb (num_truthy w))
  end.

(** The static [Rect.difference]: the references in the array returned. *)
Definition difference (a b : loc) : M (list loc) :=
  intersection ← intersection a b;
  skip ← unaffected intersection;
  if skip : bool then c ← clone a; mret [c]
  else
    let result := [] in
    top ← get Rect.top a;
    height ← get Rect.height a;
    al ← get Rect.left a; aw ← get Rect.width a;
    let ar := al + aw in
    at_ ← get Rect.top a; ah ← get Rect.height a;
    let ab := at_ + ah in
    bl ← get Rect.left b; bw ← get Rect.width b;
    let br := bl + bw in
    bt ← get Rect.top b; bh ← get Rect.height b;
    let bb := bt + bh in
    bt ← get Rect.top b; at_ ← get Rect.top a;
    '(result, top, height) ←
      (if bt >? at_ then
         al ← get Rect.left a; at_ ← get Rect.top a; aw ← get Rect.width a;
         bt ← get Rect.top b; at' ← get Rect.top a;
         r ← new al at_ aw (bt - at');
         top ← get Rect.top b;
         bt ← get Rect.top b; at_ ← get Rect.top a;
         mret (result ++ [r], top, height - (bt - at_))
       else mret (result, top, height));
    '(result, height) ←
      (if bb <? ab then
         al ← get Rect.left a; aw ← get Rect.width a;
         r ← new al bb aw (ab - bb);
         mret (result ++ [r], bb - top)
       else mret (result, height));
    bl ← get Rect.left b; al ← get Rect.left a;
    result ←
      (if bl >? al then
         al ← get Rect.left a; bl ← get Rect.left b; al' ← get Rect.left a;
         r ← new al top (bl - al') height;
         mret (result ++ [r])
       else mret result);
    result ←
      (if br <? ar then
         r ← new br top (ar - br) height;
         mret (result ++ [r])
       else mret result);
    mret result.

(** [Rect.prototype.difference] *)
Definition prototype_difference (this rect : loc) : M (list loc) :=
  difference this rect.

(** [Rect.prototype.boundingRect] *)
Definition prototype_boundingRect (this rect : loc) : M unit :=
  tl ← get Rect.left this; tw ← get Rect.width this;
  rl ← get Rect.left rect; rw ← get Rect.width rect;
  let right := num_max (tl + tw) (rl + rw) in
  tt_ ← get Rect.top this; th ← get Rect.height this;
  rt ← get Rect.top rect; rh ← get Rect.height rect;
  let bottom := num_max (tt_ + th) (rt + rh) in
  tl ← get Rect.left this; rl ← get Rect.left rect;
  set with_left this (num_min tl rl);;
  tt_ ← get Rect.top this; rt ← get Rect.top rect;
  set with_top this (num_min tt_ rt);;
  tl ← get Rect.left this;
  set with_width this (right - tl);;
  tt_ ← get Rect.top this;
  set with_height this (bottom - tt_).

(** The static [Rect.boundingRect]; [None] is [null]. *)
Definition boundingRect (a b : option loc) : M (option loc) :=
  match a, b with
  | Some a, Some b =>
      clone ← clone a;
      prototype_boundingRect clone b;;
      mret (Some clone)
  | _, _ => mret None
  end.

End Store.
End RectObj.

(** ** Binary64 read as integers

    A binary64 number that is neither NaN nor infinite is a multiple of
    [2^-1074], the least positive number: [scaled x] is that multiple, and
    [real x] is the number as a real.  [rank] extends [scaled] to the
    infinities, which it puts beyond every finite number; NaN has no rank.
    The comparisons of binary64 are the comparisons of the ranks, and an
    operation is exact, that is, it does not round, when its result is the
    sum, difference, product, quotient or root of the operands as reals. *)

Module Binary64.

Definition SFfinite (f : spec_float) : bool :=
  match f with
  | S754_zero _ | S754_finite _ _ _ => true
  | _ => false
  end.

Definition SFscaled (f : spec_float) : Z :=
  match f with
  | S754_finite s m e => cond_Zopp s (Z.pos m * 2 ^ (e + 1074))
  | _ => 0
  end.

Definition SFrank (f : spec_float) : option Z :=
  match f with
  | S754_nan => None
  | S754_infinity s => Some (cond_Zopp s (2 ^ 2100))
  | _ => Some (SFscaled f)
  end.

Definition finite (x : float) : bool := SFfinite (Prim2SF x).
Definition scaled (x : float) : Z := SFscaled (Prim2SF x).
Definition rank (x : float) : option Z := SFrank (Prim2SF x).

(** The number 1 as a multiple of [2^-1074]. *)
Definition unit : Z := 2 ^ 1074.

Definition real (x : float) : R := (IZR (scaled x) / IZR unit)%R.

(** No NaN in a list of numbers. *)
Definition numbers (l : list float) : bool :=
  forallb (fun x => negb (PrimFloat.is_nan x)) l.

Definition exact_add (x y : float) : bool :=
  finite x && finite y && finite (x + y)%float &&
  (scaled (x + y)%float =? scaled x + scaled y)%Z.

Definition exact_sub (x y : float) : bool :=
  finite x && finite y && finite (x - y)%float &&
  (scaled (x - y)%float =? scaled x - scaled y)%Z.

Definition exact_mul (x y : float) : bool :=
  finite x && finite y && finite (x * y)%float &&
  (scaled (x * y)%float * unit =? scaled x * scaled y)%Z.

Definition exact_div (x y : float) : bool :=
  finite x && finite y && finite (x / y)%float && negb (scaled y =? 0)%Z &&
  (scaled (x / y)%float * scaled y =? scaled x * unit)%Z.

Definition exact_sqrt (x : float) : bool :=
  finite x && finite (PrimFloat.sqrt x) && (0 <=? scaled (PrimFloat.sqrt x))%Z &&
  (scaled (PrimFloat.sqrt x) * scaled (PrimFloat.sqrt x) =? scaled x * unit)%Z.

End Binary64.

(** ** Runs that do not round

    The values of a binary64 object as reals, and, for the functions whose
    laws are laws of arithmetic, the test that every operation of a run is
    exact: the sums, differences, products, quotients and roots are listed
    as the source computes them, those of a branch under the test of the
    branch. *)

Module Exact.
Import Binary64.
Local Open Scope num_scope.

Definition coordinate (c : Coordinate.t float) : Coordinate.t R :=
  Coordinate.mk (real (Coordinate.x c)) (real (Coordinate.y c)).

Definition size (s : Size.t float) : Size.t R :=
  Size.mk (real (Size.width s)) (real (Size.height s)).

Definition box (b : Box.t float) : Box.t R :=
  Box.mk (real (Box.top b)) (real (Box.right b))
         (real (Box.bottom b)) (real (Box.left b)).

Definition rect (r : Rect.t float) : Rect.t R :=
  Rect.mk (real (Rect.left r)) (real (Rect.top r))
          (real (Rect.width r)) (real (Rect.height r)).

(** A coordinate whose fields are finite. *)
Definition point (c : Coordinate.t float) : bool :=
  finite (Coordinate.x c) && finite (Coordinate.y c).

(** [left + width] and [top + height]: the right and the bottom edge, as
    [toBox], [contains], [intersects] and [intersection] compute them. *)
Definition edges (r : Rect.t float) : bool :=
  exact_add (Rect.left r) (Rect.width r) &&
  exact_add (Rect.top r) (Rect.height r).

(** [r.area()] *)
Definition area (r : Rect.t float) : bool :=
  exact_mul (Rect.width r) (Rect.height r).

(** [Rect.createFromBox(r.toBox())] *)
Definition round_trip (r : Rect.t float) : bool :=
  edges r &&
  exact_sub (Rect.left r + Rect.width r) (Rect.left r) &&
  exact_sub (Rect.top r + Rect.height r) (Rect.top r).

(** [Rect.intersection(a, b)] *)
Definition intersection (a b : Rect.t float) : bool :=
  edges a && edges b &&
  (let x0 := num_max (Rect.left a) (Rect.left b) in
   let x1 := num_min (Rect.left a + Rect.width a) (Rect.left b + Rect.width b) in
   let y0 := num_max (Rect.top a) (Rect.top b) in
   let y1 := num_min (Rect.top a + Rect.height a) (Rect.top b + Rect.height b) in
   if x0 <=? x1 then
     if y0 <=? y1 then exact_sub x1 x0 && exact_sub y1 y0 else true
   else true).

(** [Rect.difference(a, b)] *)
Definition difference (a b : Rect.t float) : bool :=
  intersection a b &&
  (if Rect.unaffected (Rect.intersection a b) then true
   else
     let ar := Rect.left a + Rect.width a in
     let ab := Rect.top a + Rect.height a in
     let br := Rect.left b + Rect.width b in
     let bb := Rect.top b + Rect.height b in
     let top1 := if Rect.top b >? Rect.top a then Rect.top b else Rect.top a in
     (if Rect.top b >? Rect.top a
      then exact_sub (Rect.top b) (Rect.top a) &&
           exact_sub (Rect.height a) (Rect.top b - Rect.top a)
      else true) &&
     (if bb <? ab then exact_sub ab bb && exact_sub bb top1 else true) &&
     (if Rect.left b >? Rect.left a
      then exact_sub (Rect.left b) (Rect.left a) else true) &&
     (if br <? ar then exact_sub ar br else true)).

(** [a.boundingRect(b)] *)
Definition boundingRect (a b : Rect.t float) : bool :=
  edges a && edges b &&
  (let right := num_max (Rect.left a + Rect.width a)
                        (Rect.left b + Rect.width b) in
   let bottom := num_max (Rect.top a + Rect.height a)
                         (Rect.top b + Rect.height b) in
   let left' := num_min (Rect.left a) (Rect.left b) in
   let top' := num_min (Rect.top a) (Rect.top b) in
   exact_sub right left' && exact_sub bottom top').

(** [Box.relativePositionX(box, coord)], [Box.relativePositionY(box, coord)] *)
Definition relativePositionX (b : Box.t float) (c : Coordinate.t float) : bool :=
  finite (Coordinate.x c) && finite (Box.left b) && finite (Box.right b) &&
  (if Coordinate.x c <? Box.left b then exact_sub (Coordinate.x c) (Box.left b)
   else if Coordinate.x c >? Box.right b
        then exact_sub (Coordinate.x c) (Box.right b)
        else true).

Definition relativePositionY (b : Box.t float) (c : Coordinate.t float) : bool :=
  finite (Coordinate.y c) && finite (Box.top b) && finite (Box.bottom b) &&
  (if Coordinate.y c <? Box.top b then exact_sub (Coordinate.y c) (Box.top b)
   else if Coordinate.y c >? Box.bottom b
        then exact_sub (Coordinate.y c) (Box.bottom b)
        else true).

(** [Box.distance(box, coord)] *)
Definition distance (b : Box.t float) (c : Coordinate.t float) : bool :=
  relativePositionX b c && relativePositionY b c &&
  (let x := Box.relativePositionX b c in
   let y := Box.relativePositionY b c in
   exact_mul x x && exact_mul y y && exact_add (x * x) (y * y) &&
   exact_sqrt (x * x + y * y)).

(** [Rect.createFromBox(box).toBox()] *)
Definition box_round_trip (b : Box.t float) : bool :=
  exact_sub (Box.right b) (Box.left b) &&
  exact_sub (Box.bottom b) (Box.top b) &&
  exact_add (Box.left b) (Box.right b - Box.left b) &&
  exact_add (Box.top b) (Box.bottom b - Box.top b).

(** [this.magnitude()] *)
Definition magnitude (this : Coordinate.t float) : bool :=
  let x := Coordinate.x this in
  let y := Coordinate.y this in
  exact_mul x x && exact_mul y y && exact_add (x * x) (y * y) &&
  exact_sqrt (x * x + y * y).

(** [this.normalize()] *)
Definition normalize (this : Coordinate.t float) : bool :=
  magnitude this &&
  (let q := num_one / Coordinate.magnitude this in
   exact_div num_one (Coordinate.magnitude this) &&
   exact_mul (Coordinate.x this) q && exact_mul (Coordinate.y this) q).

End Exact.

(** ** Vocabulary of the laws *)

Section BandLayout.
Context {N : Type} `{Number N}.
Local Open Scope num_scope.

(** A band is in the array when its test holds. *)
Definition emitted (test : bool) (band : Rect.t N) : list (Rect.t N) :=
  if test then [band] else [].

(** The working [top] and [height] of [Rect.difference] once the top and the
    bottom band have been cut off: what the left and the right band span. *)
Definition working_top (a b : Rect.t N) : N :=
  if Rect.top b >? Rect.top a then Rect.top b else Rect.top a.

Definition working_height (a b : Rect.t N) : N :=
  let height1 :=
    if Rect.top b >? Rect.top a
    then Rect.height a - (Rect.top b - Rect.top a)
    else Rect.height a in
  if Rect.top b + Rect.height b <? Rect.top a + Rect.height a
  then Rect.top b + Rect.height b - working_top a b
  else height1.

End BandLayout.

Section Vocabulary.
Local Open Scope R_scope.

(** The open interior of a rectangle: the points strictly inside it. *)
Definition inside (r : Rect.t R) (x y : R) : Prop :=
  Rect.left r < x < Rect.left r + Rect.width r /\
  Rect.top r < y < Rect.top r + Rect.height r.


(** Two rectangles overlap when a point lies inside both; rectangles that
    share an edge or a corner only do not. *)
Definition overlap (r s : Rect.t R) : Prop :=
  exists x y, inside r x y /\ inside s x y.

Definition non_overlapping (l : list (Rect.t R)) : Prop :=
  ForallOrdPairs (fun r s => ~ overlap r s) l.

Definition total_area (l : list (Rect.t R)) : R :=
  fold_right Rplus 0 (map Rect.area l).

(** The four bands of [Rect.difference(a, b)], [i] being the intersection:
    the bands on the left and on the right span the rows of [i] only. *)
Definition top_band (a b : Rect.t R) : Rect.t R :=
  Rect.mk (Rect.left a) (Rect.top a) (Rect.width a) (Rect.top b - Rect.top a).

Definition bottom_band (a b : Rect.t R) : Rect.t R :=
  Rect.mk (Rect.left a) (Rect.top b + Rect.height b) (Rect.width a)
          (Rect.top a + Rect.height a - (Rect.top b + Rect.height b)).

Definition left_band (a b i : Rect.t R) : Rect.t R :=
  Rect.mk (Rect.left a) (Rect.top i) (Rect.left b - Rect.left a) (Rect.height i).

Definition right_band (a b i : Rect.t R) : Rect.t R :=
  Rect.mk (Rect.left b + Rect.width b) (Rect.top i)
          (Rect.left a + Rect.width a - (Rect.left b + Rect.width b))
          (Rect.height i).

End Vocabulary.

Section Runs.
Context {N : Type} `{Number N}.

(** [m] runs to completion from [st], and its result and final store
    satisfy [Q]. *)
Definition wp {A : Type} (m : RectObj.M A) (st : gmap RectObj.loc (Rect.t N))
    (Q : A -> gmap RectObj.loc (Rect.t N) -> Prop) : Prop :=
  exists v st', m st = Some (v, st') /\ Q v st'.

(** The references [ls] were allocated after [st0], are distinct, and hold
    the rectangles [rs] in [st]; [st] keeps every object of [st0] as it was. *)
Definition allocated (st0 st : gmap RectObj.loc (Rect.t N))
    (ls : list RectObj.loc) (rs : list (Rect.t N)) : Prop :=
  st0 ⊆ st /\
  Forall (fun l => st0 !! l = None) ls /\
  NoDup ls /\
  Forall2 (fun l r => st !! l = Some r) ls rs.

End Runs.

(** * Laws *)

(** ** Exact arithmetic: tests as propositions *)

Section RealTests.
Local Open Scope R_scope.

Lemma Rleb_true (x y : R) : Rleb x y = true <-> x <= y.
Proof. unfold Rleb. destruct (Rle_dec x y); split; intros; try done; lra. Qed.

Lemma Rleb_false (x y : R) : Rleb x y = false <-> y < x.
Proof. unfold Rleb. destruct (Rle_dec x y); split; intros; try done; lra. Qed.

Lemma Rltb_true (x y : R) : Rltb x y = true <-> x < y.
Proof. unfold Rltb. destruct (Rlt_dec x y); split; intros; try done; lra. Qed.

Lemma Rltb_false (x y : R) : Rltb x y = false <-> y <= x.
Proof. unfold Rltb. destruct (Rlt_dec x y); split; intros; try done; lra. Qed.

Lemma Reqb_true (x y : R) : Reqb x y = true <-> x = y.
Proof. unfold Reqb. destruct (Req_dec_T x y); split; intros; try done; lra. Qed.

Lemma Reqb_false (x y : R) : Reqb x y = false <-> x <> y.
Proof. unfold Reqb. destruct (Req_dec_T x y); split; intros; try done; lra. Qed.

Lemma Rmax_le_Rmin (a b c d : R) :
  Rmax a b <= Rmin c d <-> a <= c /\ a <= d /\ b <= c /\ b <= d.
Proof.
  unfold Rmax, Rmin.
  destruct (Rle_dec a b), (Rle_dec c d); split; intros; lra.
Qed.

End RealTests.

(** The operations of [Number_R], unfolded to those of [R]. *)
Ltac real_ops :=
  cbn [num_zero num_one num_add num_sub num_mul num_div num_sqrt num_leb
       num_ltb num_eqb num_max num_min num_truthy Number_R] in *.


(** ** Binary64: the comparisons are those of the ranks *)

Section SpecFloats.

Lemma digits2_pos_bounds (m : positive) :
  (2 ^ (Z.pos (digits2_pos m) - 1) <= Z.pos m < 2 ^ Z.pos (digits2_pos m))%Z.
Proof.
  induction m as [m IH | m IH |]; cbn [digits2_pos].
  - rewrite Pos2Z.inj_succ.
    replace (Z.succ (Z.pos (digits2_pos m)) - 1)%Z
      with (Z.succ (Z.pos (digits2_pos m) - 1)) by lia.
    rewrite !Z.pow_succ_r by lia. lia.
  - rewrite Pos2Z.inj_succ.
    replace (Z.succ (Z.pos (digits2_pos m)) - 1)%Z
      with (Z.succ (Z.pos (digits2_pos m) - 1)) by lia.
    rewrite !Z.pow_succ_r by lia. lia.
  - cbn. lia.
Qed.

Lemma valid_finite (s : bool) (m : positive) (e : Z) :
  FloatAxioms.valid_binary (S754_finite s m e) = true ->
  (-1074 <= e <= 971)%Z /\
  (Z.pos m < 2 ^ 53)%Z /\
  (-1074 < e -> 2 ^ 52 <= Z.pos m)%Z.
Proof.
  cbn [SpecFloat.valid_binary].
  unfold SpecFloat.bounded, SpecFloat.canonical_mantissa, SpecFloat.fexp,
    SpecFloat.emin.
  rewrite andb_true_iff, Z.eqb_eq, Z.leb_le. intros [Hc He].
  pose proof (digits2_pos_bounds m) as [Hlo Hhi].
  set (d := Z.pos (digits2_pos m)) in *.
  unfold prec, emax in *. clearbody d.
  assert (Hd : (d <= 53)%Z) by lia.
  split; [lia |]. split.
  - eapply Z.lt_le_trans; [exact Hhi |]. apply Z.pow_le_mono_r; lia.
  - intros Hn. assert (d = 53)%Z as Hd' by lia. rewrite Hd' in Hlo. exact Hlo.
Qed.

Lemma scaled_pos (m : positive) (e : Z) :
  (-1074 <= e)%Z -> (0 < Z.pos m * 2 ^ (e + 1074))%Z.
Proof.
  intros He. apply Z.mul_pos_pos; [reflexivity |].
  apply Z.pow_pos_nonneg; lia.
Qed.

Lemma scaled_lt (m1 m2 : positive) (e1 e2 : Z) :
  (-1074 <= e1)%Z -> (e1 < e2)%Z ->
  (Z.pos m1 < 2 ^ 53)%Z -> (2 ^ 52 <= Z.pos m2)%Z ->
  (Z.pos m1 * 2 ^ (e1 + 1074) < Z.pos m2 * 2 ^ (e2 + 1074))%Z.
Proof.
  intros He1 He H1 H2.
  replace (e2 + 1074)%Z with ((e2 - e1) + (e1 + 1074))%Z by lia.
  rewrite (Z.pow_add_r 2 (e2 - e1) (e1 + 1074)) by lia.
  assert (0 < 2 ^ (e1 + 1074))%Z by (apply Z.pow_pos_nonneg; lia).
  assert (2 ^ 1 <= 2 ^ (e2 - e1))%Z by (apply Z.pow_le_mono_r; lia).
  rewrite Z.mul_assoc. apply Z.mul_lt_mono_pos_r; [assumption |].
  change (2 ^ 1)%Z with 2%Z in *. change (2 ^ 53)%Z with (2 ^ 52 * 2)%Z in H1.
  nia.
Qed.

Lemma scaled_bound (m : positive) (e : Z) :
  (-1074 <= e <= 971)%Z -> (Z.pos m < 2 ^ 53)%Z ->
  (Z.pos m * 2 ^ (e + 1074) < 2 ^ 2100)%Z.
Proof.
  intros He Hm.
  assert (0 < 2 ^ (e + 1074))%Z by (apply Z.pow_pos_nonneg; lia).
  assert (2 ^ (e + 1074) <= 2 ^ 2045)%Z by (apply Z.pow_le_mono_r; lia).
  replace (2 ^ 2100)%Z with (2 ^ 53 * 2 ^ 2045 * 2 ^ 2)%Z
    by (rewrite <- !Z.pow_add_r by lia; reflexivity).
  assert (0 < 2 ^ 2045)%Z by (apply Z.pow_pos_nonneg; lia).
  assert (Z.pos m * 2 ^ (e + 1074) < 2 ^ 53 * 2 ^ 2045)%Z.
  { apply Z.lt_le_trans with (2 ^ 53 * 2 ^ (e + 1074))%Z.
    - apply Z.mul_lt_mono_pos_r; assumption.
    - apply Z.mul_le_mono_nonneg_l; [lia | assumption]. }
  change (2 ^ 2)%Z with 4%Z. lia.
Qed.

Lemma compare_Lt (a b : Z) : (a < b)%Z -> Some Lt = Some (a ?= b)%Z.
Proof. intros H. apply Z.compare_lt_iff in H. congruence. Qed.

Lemma compare_Gt (a b : Z) : (b < a)%Z -> Some Gt = Some (a ?= b)%Z.
Proof. intros H. apply Z.compare_gt_iff in H. congruence. Qed.

Lemma compare_Eq (a b : Z) : a = b -> Some Eq = Some (a ?= b)%Z.
Proof. intros ->. rewrite Z.compare_refl. reflexivity. Qed.

Lemma SFcompare_rank (f1 f2 : spec_float) :
  FloatAxioms.valid_binary f1 = true -> FloatAxioms.valid_binary f2 = true ->
  SFcompare f1 f2 =
    match Binary64.SFrank f1, Binary64.SFrank f2 with
    | Some a, Some b => Some (a ?= b)%Z
    | _, _ => None
    end.
Proof.
  intros V1 V2.
  assert (HP : (0 < 2 ^ 2100)%Z) by (apply Z.pow_pos_nonneg; lia).
  destruct f1 as [s1 | s1 | | s1 m1 e1], f2 as [s2 | s2 | | s2 m2 e2];
    cbn [SFcompare Binary64.SFrank Binary64.SFscaled]; try reflexivity;
    try (apply valid_finite in V1 as (He1 & Hm1 & Hn1);
         pose proof (scaled_pos m1 e1 ltac:(lia)) as Hp1;
         pose proof (scaled_bound m1 e1 He1 Hm1) as Hb1);
    try (apply valid_finite in V2 as (He2 & Hm2 & Hn2);
         pose proof (scaled_pos m2 e2 ltac:(lia)) as Hp2;
         pose proof (scaled_bound m2 e2 He2 Hm2) as Hb2);
    try (destruct s1; try destruct s2; cbn [cond_Zopp];
         first [apply compare_Lt; lia | apply compare_Gt; lia | apply compare_Eq; lia]);
    try (destruct s2; cbn [cond_Zopp];
         first [apply compare_Lt; lia | apply compare_Gt; lia | apply compare_Eq; lia]).
  all: destruct s1, s2; cbn [cond_Zopp];
    try (first [apply compare_Lt; lia | apply compare_Gt; lia]).
  - (* both negative *)
    destruct (Z.compare_spec e1 e2) as [-> | He | He].
    + change (Pos.compare_cont Eq m1 m2) with (Pos.compare m1 m2).
      destruct (Pos.compare_spec m1 m2) as [-> | Hm | Hm]; cbn [CompOpp].
      * apply compare_Eq. reflexivity.
      * apply compare_Gt. apply Z.opp_lt_mono. rewrite !Z.opp_involutive.
        apply Z.mul_lt_mono_pos_r; [apply Z.pow_pos_nonneg; lia | lia].
      * apply compare_Lt. apply Z.opp_lt_mono. rewrite !Z.opp_involutive.
        apply Z.mul_lt_mono_pos_r; [apply Z.pow_pos_nonneg; lia | lia].
    + apply compare_Gt.
      pose proof (scaled_lt m1 m2 e1 e2 ltac:(lia) He Hm1 ltac:(apply Hn2; lia)).
      lia.
    + apply compare_Lt.
      pose proof (scaled_lt m2 m1 e2 e1 ltac:(lia) He Hm2 ltac:(apply Hn1; lia)).
      lia.
  - destruct (Z.compare_spec e1 e2) as [-> | He | He].
    + change (Pos.compare_cont Eq m1 m2) with (Pos.compare m1 m2).
      destruct (Pos.compare_spec m1 m2) as [-> | Hm | Hm].
      * apply compare_Eq. reflexivity.
      * apply compare_Lt.
        apply Z.mul_lt_mono_pos_r; [apply Z.pow_pos_nonneg; lia | lia].
      * apply compare_Gt.
        apply Z.mul_lt_mono_pos_r; [apply Z.pow_pos_nonneg; lia | lia].
    + apply compare_Lt.
      exact (scaled_lt m1 m2 e1 e2 ltac:(lia) He Hm1 ltac:(apply Hn2; lia)).
    + apply compare_Gt.
      exact (scaled_lt m2 m1 e2 e1 ltac:(lia) He Hm2 ltac:(apply Hn1; lia)).
Qed.

End SpecFloats.

Section Binary64Order.
Import Binary64.
Implicit Types x y z : float.

Lemma compare_rank x y :
  SFcompare (Prim2SF x) (Prim2SF y) =
    match rank x, rank y with
    | Some a, Some b => Some (a ?= b)%Z
    | _, _ => None
    end.
Proof. apply SFcompare_rank; apply Prim2SF_valid. Qed.

Lemma leb_rank x y :
  PrimFloat.leb x y =
    match rank x, rank y with
    | Some a, Some b => (a <=? b)%Z
    | _, _ => false
    end.
Proof.
  rewrite FloatAxioms.leb_spec. unfold SFleb. rewrite compare_rank.
  destruct (rank x) as [a|], (rank y) as [b|]; reflexivity.
Qed.

Lemma ltb_rank x y :
  PrimFloat.ltb x y =
    match rank x, rank y with
    | Some a, Some b => (a <? b)%Z
    | _, _ => false
    end.
Proof.
  rewrite FloatAxioms.ltb_spec. unfold SFltb. rewrite compare_rank.
  destruct (rank x) as [a|], (rank y) as [b|]; reflexivity.
Qed.

Lemma eqb_rank x y :
  PrimFloat.eqb x y =
    match rank x, rank y with
    | Some a, Some b => (a =? b)%Z
    | _, _ => false
    end.
Proof.
  rewrite FloatAxioms.eqb_spec. unfold SFeqb. rewrite compare_rank.
  destruct (rank x) as [a|], (rank y) as [b|]; try reflexivity.
  destruct (Z.eqb_spec a b) as [-> | Hne].
  - rewrite Z.compare_refl. reflexivity.
  - destruct (Z.compare_spec a b); [contradiction | reflexivity ..].
Qed.

Lemma is_nan_rank x :
  PrimFloat.is_nan x = match rank x with Some _ => false | None => true end.
Proof.
  unfold PrimFloat.is_nan. rewrite eqb_rank.
  destruct (rank x) as [a|]; [| reflexivity]. rewrite Z.eqb_refl. reflexivity.
Qed.

Lemma rank_nan : rank PrimFloat.nan = None.
Proof. vm_compute. reflexivity. Qed.

Lemma rank_zero : rank PrimFloat.zero = Some 0%Z.
Proof. vm_compute. reflexivity. Qed.

Lemma is_zero_rank x :
  PrimFloat.is_zero x = match rank x with Some a => (a =? 0)%Z | None => false end.
Proof.
  unfold PrimFloat.is_zero. rewrite eqb_rank, rank_zero.
  destruct (rank x); reflexivity.
Qed.

Lemma truthy_rank x :
  num_truthy x = match rank x with Some a => negb (a =? 0)%Z | None => false end.
Proof.
  cbn [num_truthy Number_float]. rewrite is_zero_rank, is_nan_rank.
  destruct (rank x) as [a|]; [| reflexivity]. rewrite orb_false_r. reflexivity.
Qed.

Lemma float_max_rank x y :
  rank (float_max x y) =
    match rank x, rank y with
    | Some a, Some b => Some (Z.max a b)
    | _, _ => None
    end.
Proof.
  unfold float_max. rewrite !is_nan_rank, !ltb_rank.
  destruct (rank x) as [a|] eqn:Hx, (rank y) as [b|] eqn:Hy;
    cbn [orb]; try apply rank_nan.
  destruct (Z.ltb_spec a b); [rewrite Hy; f_equal; lia |].
  destruct (Z.ltb_spec b a); [rewrite Hx; f_equal; lia |].
  destruct (PrimFloat.get_sign x); [rewrite Hy | rewrite Hx]; f_equal; lia.
Qed.

Lemma float_min_rank x y :
  rank (float_min x y) =
    match rank x, rank y with
    | Some a, Some b => Some (Z.min a b)
    | _, _ => None
    end.
Proof.
  unfold float_min. rewrite !is_nan_rank, !ltb_rank.
  destruct (rank x) as [a|] eqn:Hx, (rank y) as [b|] eqn:Hy;
    cbn [orb]; try apply rank_nan.
  destruct (Z.ltb_spec a b); [rewrite Hx; f_equal; lia |].
  destruct (Z.ltb_spec b a); [rewrite Hy; f_equal; lia |].
  destruct (PrimFloat.get_sign x); [rewrite Hx | rewrite Hy]; f_equal; lia.
Qed.

(** [Math.max] and [Math.min] of two numbers answer one of the two. *)
Lemma float_max_cases x y :
  PrimFloat.is_nan x = false -> PrimFloat.is_nan y = false ->
  float_max x y = x \/ float_max x y = y.
Proof.
  unfold float_max. intros -> ->. cbn [orb].
  destruct (PrimFloat.ltb x y); [auto |].
  destruct (PrimFloat.ltb y x); [auto |].
  destruct (PrimFloat.get_sign x); auto.
Qed.

Lemma float_min_cases x y :
  PrimFloat.is_nan x = false -> PrimFloat.is_nan y = false ->
  float_min x y = x \/ float_min x y = y.
Proof.
  unfold float_min. intros -> ->. cbn [orb].
  destruct (PrimFloat.ltb x y); [auto |].
  destruct (PrimFloat.ltb y x); [auto |].
  destruct (PrimFloat.get_sign x); auto.
Qed.

Lemma finite_rank x : finite x = true -> rank x = Some (scaled x).
Proof.
  unfold finite, rank, scaled. destruct (Prim2SF x); cbn; congruence.
Qed.

Lemma finite_not_nan x : finite x = true -> PrimFloat.is_nan x = false.
Proof. intros Hx. rewrite is_nan_rank, (finite_rank x Hx). reflexivity. Qed.

End Binary64Order.

Section Binary64Real.
Import Binary64.
Implicit Types x y z : float.
Local Open Scope R_scope.

Lemma unit_pos : 0 < IZR unit.
Proof. apply IZR_lt. unfold unit. apply Z.pow_pos_nonneg; lia. Qed.

Lemma real_le x y : (scaled x <= scaled y)%Z <-> real x <= real y.
Proof.
  unfold real. pose proof unit_pos as Hu. split.
  - intros H. apply IZR_le in H.
    apply Rmult_le_compat_r; [| exact H].
    apply Rlt_le, Rinv_0_lt_compat, Hu.
  - intros H. apply le_IZR.
    apply Rmult_le_reg_r with (/ IZR unit); [apply Rinv_0_lt_compat, Hu | exact H].
Qed.

Lemma real_lt x y : (scaled x < scaled y)%Z <-> real x < real y.
Proof.
  unfold real. pose proof unit_pos as Hu. split.
  - intros H. apply IZR_lt in H.
    apply Rmult_lt_compat_r; [| exact H]. apply Rinv_0_lt_compat, Hu.
  - intros H. apply lt_IZR.
    apply Rmult_lt_reg_r with (/ IZR unit); [apply Rinv_0_lt_compat, Hu | exact H].
Qed.

Lemma real_eq x y : scaled x = scaled y <-> real x = real y.
Proof.
  split.
  - unfold real. intros ->. reflexivity.
  - intros H. apply Z.le_antisymm; apply real_le; rewrite H; apply Rle_refl.
Qed.

Lemma leb_real x y :
  finite x = true -> finite y = true ->
  PrimFloat.leb x y = Rleb (real x) (real y).
Proof.
  intros Hx Hy. rewrite leb_rank, (finite_rank x Hx), (finite_rank y Hy).
  destruct (Z.leb_spec (scaled x) (scaled y)) as [H | H]; symmetry.
  - apply Rleb_true, real_le, H.
  - apply Rleb_false, real_lt, H.
Qed.

Lemma ltb_real x y :
  finite x = true -> finite y = true ->
  PrimFloat.ltb x y = Rltb (real x) (real y).
Proof.
  intros Hx Hy. rewrite ltb_rank, (finite_rank x Hx), (finite_rank y Hy).
  destruct (Z.ltb_spec (scaled x) (scaled y)) as [H | H]; symmetry.
  - apply Rltb_true, real_lt, H.
  - apply Rltb_false, real_le, H.
Qed.

Lemma eqb_real x y :
  finite x = true -> finite y = true ->
  PrimFloat.eqb x y = Reqb (real x) (real y).
Proof.
  intros Hx Hy. rewrite eqb_rank, (finite_rank x Hx), (finite_rank y Hy).
  destruct (Z.eqb_spec (scaled x) (scaled y)) as [H | H]; symmetry.
  - apply Reqb_true, real_eq, H.
  - apply Reqb_false. intros E. apply H, real_eq, E.
Qed.

Lemma finite_zero : finite PrimFloat.zero = true.
Proof. vm_compute. reflexivity. Qed.

Lemma real_zero : real PrimFloat.zero = 0.
Proof.
  unfold real. replace (scaled PrimFloat.zero) with 0%Z by (vm_compute; reflexivity).
  unfold Rdiv. apply Rmult_0_l.
Qed.

Lemma finite_one : finite PrimFloat.one = true.
Proof. vm_compute. reflexivity. Qed.


Lemma truthy_real x :
  finite x = true -> num_truthy x = negb (Reqb (real x) 0).
Proof.
  intros Hx. cbn [num_truthy Number_float].
  rewrite (finite_not_nan x Hx), orb_false_r. unfold PrimFloat.is_zero.
  rewrite (eqb_real x _ Hx finite_zero), real_zero. reflexivity.
Qed.

Lemma max_real x y :
  finite x = true -> finite y = true ->
  finite (float_max x y) = true /\
  real (float_max x y) = Rmax (real x) (real y).
Proof.
  intros Hx Hy.
  assert (Hf : finite (float_max x y) = true).
  { destruct (float_max_cases x y (finite_not_nan x Hx) (finite_not_nan y Hy))
      as [-> | ->]; assumption. }
  split; [exact Hf |].
  pose proof (float_max_rank x y) as Hr.
  rewrite (finite_rank _ Hf), (finite_rank x Hx), (finite_rank y Hy) in Hr.
  injection Hr as Hr.
  unfold Rmax. destruct (Rle_dec (real x) (real y)) as [H | H].
  - apply real_eq. apply real_le in H. lia.
  - apply real_eq. apply Rnot_le_lt, real_lt in H. lia.
Qed.

Lemma min_real x y :
  finite x = true -> finite y = true ->
  finite (float_min x y) = true /\
  real (float_min x y) = Rmin (real x) (real y).
Proof.
  intros Hx Hy.
  assert (Hf : finite (float_min x y) = true).
  { destruct (float_min_cases x y (finite_not_nan x Hx) (finite_not_nan y Hy))
      as [-> | ->]; assumption. }
  split; [exact Hf |].
  pose proof (float_min_rank x y) as Hr.
  rewrite (finite_rank _ Hf), (finite_rank x Hx), (finite_rank y Hy) in Hr.
  injection Hr as Hr.
  unfold Rmin. destruct (Rle_dec (real x) (real y)) as [H | H].
  - apply real_eq. apply real_le in H. lia.
  - apply real_eq. apply Rnot_le_lt, real_lt in H. lia.
Qed.

(** An exact operation: the operands and the result are finite and the
    result is the real sum, difference, product, quotient or root. *)
Lemma exact_add_real x y :
  exact_add x y = true ->
  finite x = true /\ finite y = true /\ finite (x + y)%float = true /\
  real (x + y)%float = real x + real y.
Proof.
  unfold exact_add. rewrite !andb_true_iff, Z.eqb_eq.
  intros [[[Hx Hy] Hr] He]. repeat split; try assumption.
  unfold real. rewrite He, plus_IZR. pose proof unit_pos. field. lra.
Qed.

Lemma exact_sub_real x y :
  exact_sub x y = true ->
  finite x = true /\ finite y = true /\ finite (x - y)%float = true /\
  real (x - y)%float = real x - real y.
Proof.
  unfold exact_sub. rewrite !andb_true_iff, Z.eqb_eq.
  intros [[[Hx Hy] Hr] He]. repeat split; try assumption.
  unfold real. rewrite He, minus_IZR. pose proof unit_pos. field. lra.
Qed.

Lemma exact_mul_real x y :
  exact_mul x y = true ->
  finite x = true /\ finite y = true /\ finite (x * y)%float = true /\
  real (x * y)%float = real x * real y.
Proof.
  unfold exact_mul. rewrite !andb_true_iff, Z.eqb_eq.
  intros [[[Hx Hy] Hr] He]. repeat split; try assumption.
  unfold real. apply (f_equal IZR) in He. rewrite !mult_IZR in He.
  pose proof unit_pos.
  apply Rmult_eq_reg_r with (IZR unit * IZR unit); [| nra].
  transitivity (IZR (scaled (x * y)%float) * IZR unit); [field; lra |].
  rewrite He. field. lra.
Qed.



End Binary64Real.

(** ** Rect.intersection and Rect.intersects *)

Section RectIntersection.
Local Open Scope R_scope.
Implicit Types a b i : Rect.t R.

Lemma intersection_Some a b i :
  Rect.intersection a b = Some i <->
    Rmax (Rect.left a) (Rect.left b)
      <= Rmin (Rect.left a + Rect.width a) (Rect.left b + Rect.width b) /\
    Rmax (Rect.top a) (Rect.top b)
      <= Rmin (Rect.top a + Rect.height a) (Rect.top b + Rect.height b) /\
    i = Rect.mk
          (Rmax (Rect.left a) (Rect.left b))
          (Rmax (Rect.top a) (Rect.top b))
          (Rmin (Rect.left a + Rect.width a) (Rect.left b + Rect.width b)
             - Rmax (Rect.left a) (Rect.left b))
          (Rmin (Rect.top a + Rect.height a) (Rect.top b + Rect.height b)
             - Rmax (Rect.top a) (Rect.top b)).
Proof.
  unfold Rect.intersection. real_ops.
  set (x0 := Rmax _ _). set (x1 := Rmin _ _).
  set (y0 := Rmax _ _). set (y1 := Rmin _ _).
  destruct (Rleb x0 x1) eqn:Hx; [destruct (Rleb y0 y1) eqn:Hy |].
  - apply Rleb_true in Hx. apply Rleb_true in Hy.
    split; [intros [= <-]; done | intros (_ & _ & ->); done].
  - apply Rleb_false in Hy. split; [done | intros (_ & ? & _); lra].
  - apply Rleb_false in Hx. split; [done | intros (? & _); lra].
Qed.

Lemma intersection_None a b :
  Rect.intersection a b = None <->
    Rmin (Rect.left a + Rect.width a) (Rect.left b + Rect.width b)
      < Rmax (Rect.left a) (Rect.left b) \/
    Rmin (Rect.top a + Rect.height a) (Rect.top b + Rect.height b)
      < Rmax (Rect.top a) (Rect.top b).
Proof.
  unfold Rect.intersection. real_ops.
  set (x0 := Rmax _ _). set (x1 := Rmin _ _).
  set (y0 := Rmax _ _). set (y1 := Rmin _ _).
  destruct (Rleb x0 x1) eqn:Hx; [destruct (Rleb y0 y1) eqn:Hy |].
  - apply Rleb_true in Hx. apply Rleb_true in Hy.
    split; [done | intros [?|?]; lra].
  - apply Rleb_false in Hy. split; auto.
  - apply Rleb_false in Hx. split; auto.
Qed.

Lemma intersects_true a b :
  Rect.intersects a b = true <->
    Rect.left a <= Rect.left b + Rect.width b /\
    Rect.left b <= Rect.left a + Rect.width a /\
    Rect.top a <= Rect.top b + Rect.height b /\
    Rect.top b <= Rect.top a + Rect.height a.
Proof.
  unfold Rect.intersects. real_ops.
  rewrite !andb_true_iff, !Rleb_true. tauto.
Qed.

(** A rectangle that [Rect.intersection] returns is met by [Rect.intersects],
    whatever the signs of the extents. *)
Lemma intersection_intersects a b i :
  Rect.intersection a b = Some i -> Rect.intersects a b = true.
Proof.
  rewrite intersection_Some, intersects_true.
  intros (Hx & Hy & _). apply Rmax_le_Rmin in Hx, Hy.
  unfold Rmax, Rmin in *. lra.
Qed.

Lemma intersects_intersection a b :
  0 <= Rect.width a -> 0 <= Rect.height a ->
  0 <= Rect.width b -> 0 <= Rect.height b ->
  Rect.intersects a b = true -> is_Some (Rect.intersection a b).
Proof.
  intros ? ? ? ?. rewrite intersects_true. intros (? & ? & ? & ?).
  eexists. apply intersection_Some. rewrite !Rmax_le_Rmin.
  repeat split; lra.
Qed.

End RectIntersection.

(** ** Rect.difference *)

Section RectDifference.
Local Open Scope R_scope.
Implicit Types a b i : Rect.t R.

Lemma truthy_zero (v : R) : num_truthy v = false <-> v = 0.
Proof. real_ops. rewrite negb_false_iff. apply Reqb_true. Qed.

Lemma unaffected_true a b :
  Rect.unaffected (Rect.intersection a b) = true <->
    Rect.intersection a b = None \/
    exists i, Rect.intersection a b = Some i /\
              (Rect.width i = 0 \/ Rect.height i = 0).
Proof.
  unfold Rect.unaffected. destruct (Rect.intersection a b) as [i|].
  - rewrite orb_true_iff, !negb_true_iff, !truthy_zero. split.
    + intros [?|?]; right; exists i; auto.
    + intros [?|(i' & [= <-] & [?|?])]; [done | auto | auto].
  - split; auto.
Qed.

Lemma unaffected_false a b :
  Rect.unaffected (Rect.intersection a b) = false <->
    exists i, Rect.intersection a b = Some i /\
              Rect.width i <> 0 /\ Rect.height i <> 0.
Proof.
  unfold Rect.unaffected. destruct (Rect.intersection a b) as [i|].
  - rewrite orb_false_iff, !negb_false_iff.
    assert (Ht : forall v : R, num_truthy v = true <-> v <> 0).
    { intros v. real_ops. rewrite negb_true_iff. apply Reqb_false. }
    rewrite !Ht. split.
    + intros [? ?]. exists i; auto.
    + intros (i' & [= <-] & ? & ?); auto.
  - split; [done | intros (i' & ? & _); done].
Qed.

Lemma difference_clone a b :
  Rect.unaffected (Rect.intersection a b) = true ->
  Rect.difference a b = [Rect.clone a].
Proof. unfold Rect.difference. intros ->. reflexivity. Qed.

(** The rectangle of the intersection lies within both operands. *)
Lemma intersection_bounds a b i :
  Rect.intersection a b = Some i ->
  Rect.left i = Rmax (Rect.left a) (Rect.left b) /\
  Rect.top i = Rmax (Rect.top a) (Rect.top b) /\
  Rect.left i + Rect.width i
    = Rmin (Rect.left a + Rect.width a) (Rect.left b + Rect.width b) /\
  Rect.top i + Rect.height i
    = Rmin (Rect.top a + Rect.height a) (Rect.top b + Rect.height b) /\
  0 <= Rect.width i /\ 0 <= Rect.height i.
Proof.
  rewrite intersection_Some. intros (Hx & Hy & ->). cbn.
  repeat split; lra.
Qed.

(** The array in the order top, bottom, left, right; the working [top] and
    [height] of the source have become those of the intersection by the time
    the left and right bands are built. *)
Lemma difference_bands a b i :
  Rect.intersection a b = Some i ->
  Rect.width i <> 0 -> Rect.height i <> 0 ->
  Rect.difference a b =
    emitted (Rltb (Rect.top a) (Rect.top b)) (top_band a b) ++
    emitted (Rltb (Rect.top b + Rect.height b) (Rect.top a + Rect.height a))
            (bottom_band a b) ++
    emitted (Rltb (Rect.left a) (Rect.left b)) (left_band a b i) ++
    emitted (Rltb (Rect.left b + Rect.width b) (Rect.left a + Rect.width a))
            (right_band a b i).
Proof.
  intros Hi Hw Hh.
  assert (Hu : Rect.unaffected (Rect.intersection a b) = false).
  { apply unaffected_false. eauto. }
  destruct (intersection_bounds _ _ _ Hi) as (Hl & Ht & Hr & Hb & Hw0 & Hh0).
  unfold Rect.difference. rewrite Hu. clear Hu Hi.
  unfold emitted, top_band, bottom_band, left_band, right_band.
  destruct a as [al at_ aw ah], b as [bl bt bw bh], i as [il it iw ih].
  cbn [Rect.left Rect.top Rect.width Rect.height] in *.
  real_ops.
  destruct (Rltb at_ bt) eqn:T; destruct (Rltb (bt + bh) (at_ + ah)) eqn:B;
    destruct (Rltb al bl) eqn:L; destruct (Rltb (bl + bw) (al + aw)) eqn:Rt;
    cbn [app];
    repeat match goal with
      | H : Rltb _ _ = true |- _ => apply Rltb_true in H
      | H : Rltb _ _ = false |- _ => apply Rltb_false in H
      end;
    unfold Rmax, Rmin in *;
    repeat match goal with
      | H : context [Rle_dec ?x ?y] |- _ => destruct (Rle_dec x y)
      end;
    repeat (f_equal; try lra).
Qed.

End RectDifference.

(** ** The bands do not overlap and account for the area *)

Section RectPartition.
Local Open Scope R_scope.
Implicit Types a b i : Rect.t R.

(** Two rectangles whose interiors a horizontal or a vertical line keeps
    apart do not overlap. *)
Lemma apart_rows (r s : Rect.t R) :
  Rect.top r + Rect.height r <= Rect.top s -> ~ overlap r s.
Proof. intros ? (x & y & [_ ?] & [_ ?]). lra. Qed.

Lemma apart_rows' (r s : Rect.t R) :
  Rect.top s + Rect.height s <= Rect.top r -> ~ overlap r s.
Proof. intros ? (x & y & [_ ?] & [_ ?]). lra. Qed.

Lemma apart_columns (r s : Rect.t R) :
  Rect.left r + Rect.width r <= Rect.left s -> ~ overlap r s.
Proof. intros ? (x & y & [? _] & [? _]). lra. Qed.

Lemma non_overlapping_singleton (r : Rect.t R) : non_overlapping [r].
Proof. repeat constructor. Qed.

Lemma total_area_emitted (test : bool) (r : Rect.t R) (l : list (Rect.t R)) :
  total_area (emitted test r ++ l)
  = (if test then Rect.area r else 0) + total_area l.
Proof. destruct test; cbn; unfold total_area; lra. Qed.

Section BandAreas.
Variables a b i : Rect.t R.
Hypothesis Hi : Rect.intersection a b = Some i.

Lemma band_rows :
  Rect.top a <= Rect.top i /\ Rect.top b <= Rect.top i /\
  Rect.top i + Rect.height i <= Rect.top a + Rect.height a /\
  Rect.top i + Rect.height i <= Rect.top b + Rect.height b.
Proof.
  destruct (intersection_bounds _ _ _ Hi) as (_ & -> & _ & -> & _ & _).
  unfold Rmax, Rmin. repeat destruct Rle_dec; lra.
Qed.

Lemma band_columns :
  Rect.left a <= Rect.left i /\ Rect.left b <= Rect.left i /\
  Rect.left i + Rect.width i <= Rect.left a + Rect.width a /\
  Rect.left i + Rect.width i <= Rect.left b + Rect.width b.
Proof.
  destruct (intersection_bounds _ _ _ Hi) as (-> & _ & -> & _ & _ & _).
  unfold Rmax, Rmin. repeat destruct Rle_dec; lra.
Qed.

Lemma top_bottom_apart : ~ overlap (top_band a b) (bottom_band a b).
Proof.
  destruct band_rows as (? & ? & ? & ?).
  destruct (intersection_bounds _ _ _ Hi) as (_ & _ & _ & _ & _ & ?).
  apply apart_rows. cbn. lra.
Qed.

Lemma top_left_apart : ~ overlap (top_band a b) (left_band a b i).
Proof. destruct band_rows as (? & ? & ? & ?). apply apart_rows. cbn. lra. Qed.

Lemma top_right_apart : ~ overlap (top_band a b) (right_band a b i).
Proof. destruct band_rows as (? & ? & ? & ?). apply apart_rows. cbn. lra. Qed.

Lemma bottom_left_apart : ~ overlap (bottom_band a b) (left_band a b i).
Proof. destruct band_rows as (? & ? & ? & ?). apply apart_rows'. cbn. lra. Qed.

Lemma bottom_right_apart : ~ overlap (bottom_band a b) (right_band a b i).
Proof. destruct band_rows as (? & ? & ? & ?). apply apart_rows'. cbn. lra. Qed.

Lemma left_right_apart : ~ overlap (left_band a b i) (right_band a b i).
Proof.
  destruct band_columns as (? & ? & ? & ?).
  destruct (intersection_bounds _ _ _ Hi) as (_ & _ & _ & _ & ? & _).
  apply apart_columns. cbn. lra.
Qed.

Lemma bands_non_overlapping (t u l r : bool) :
  non_overlapping
    (emitted t (top_band a b) ++ emitted u (bottom_band a b) ++
     emitted l (left_band a b i) ++ emitted r (right_band a b i)).
Proof.
  pose proof top_bottom_apart. pose proof top_left_apart.
  pose proof top_right_apart. pose proof bottom_left_apart.
  pose proof bottom_right_apart. pose proof left_right_apart.
  unfold non_overlapping.
  destruct t, u, l, r; cbn; repeat constructor; assumption.
Qed.

(** The heights of the top band, of the bottom band and of the intersection
    add up to the height of [a]; so do the widths on the other axis. *)
Lemma rows_add_up :
  0 <= Rect.height a ->
  (if Rltb (Rect.top a) (Rect.top b) then Rect.height (top_band a b) else 0)
  + (if Rltb (Rect.top b + Rect.height b) (Rect.top a + Rect.height a)
     then Rect.height (bottom_band a b) else 0)
  + Rect.height i = Rect.height a.
Proof.
  intros ?.
  destruct (intersection_bounds _ _ _ Hi) as (_ & Ht & _ & Hb & _ & _).
  cbn. unfold Rltb, Rmax, Rmin in *.
  repeat destruct Rlt_dec; repeat destruct Rle_dec; lra.
Qed.

Lemma columns_add_up :
  0 <= Rect.width a ->
  (if Rltb (Rect.left a) (Rect.left b) then Rect.width (left_band a b i) else 0)
  + (if Rltb (Rect.left b + Rect.width b) (Rect.left a + Rect.width a)
     then Rect.width (right_band a b i) else 0)
  + Rect.width i = Rect.width a.
Proof.
  intros ?.
  destruct (intersection_bounds _ _ _ Hi) as (Hl & _ & Hr & _ & _ & _).
  cbn. unfold Rltb, Rmax, Rmin in *.
  repeat destruct Rlt_dec; repeat destruct Rle_dec; lra.
Qed.

Lemma bands_area :
  Rect.width i <> 0 -> Rect.height i <> 0 ->
  total_area (Rect.difference a b) + Rect.area i = Rect.area a.
Proof.
  intros Hw Hh.
  rewrite (difference_bands _ _ _ Hi Hw Hh).
  assert (Hrows := band_rows). assert (Hcols := band_columns).
  destruct (intersection_bounds _ _ _ Hi) as (_ & _ & _ & _ & Hw0 & Hh0).
  assert (0 <= Rect.height a) as Ha by lra.
  assert (0 <= Rect.width a) as Ha' by lra.
  pose proof (rows_add_up Ha) as Hr. pose proof (columns_add_up Ha') as Hc.
  rewrite !total_area_emitted.
  replace (emitted _ (right_band a b i))
    with (emitted (Rltb (Rect.left b + Rect.width b) (Rect.left a + Rect.width a))
            (right_band a b i) ++ []) by apply app_nil_r.
  rewrite total_area_emitted.
  unfold total_area at 1. cbn [map fold_right].
  revert Hr Hc. unfold Rect.area. real_ops.
  repeat match goal with |- context [Rltb ?x ?y] => destruct (Rltb x y) end;
    cbn [Rect.width Rect.height top_band bottom_band left_band right_band];
    intros Hr Hc;
    match type of Hr with ?s + ?h = ?h' =>
      assert (Eh : h = h' - s) by lra; rewrite Eh end;
    match type of Hc with ?s + ?w = ?w' =>
      assert (Ew : w = w' - s) by lra; rewrite Ew end;
    ring.
Qed.



(** Every rectangle with an intersection is partitioned: this needs no
    hypothesis on the signs, for [Rect.intersection] finds no rectangle
    when an operand has a negative width or height. *)
Lemma intersection_partitions :
  non_overlapping (Rect.difference a b) /\
  total_area (Rect.difference a b) + Rect.area i = Rect.area a.
Proof.
  destruct (Rect.unaffected (Rect.intersection a b)) eqn:Hu.
  - rewrite (difference_clone a b Hu). split.
    + apply non_overlapping_singleton.
    + apply unaffected_true in Hu as [Hn | (i' & Hs' & Hz)]; [congruence |].
      assert (i' = i) as -> by congruence.
      unfold total_area, Rect.area, Rect.clone. cbn. real_ops.
      destruct Hz as [-> | ->]; ring.
  - apply unaffected_false in Hu as (i' & Hs' & Hw & Hh).
    assert (i' = i) as -> by congruence. split.
    + rewrite (difference_bands a b i Hi Hw Hh).
      apply bands_non_overlapping.
    + apply bands_area; assumption.
Qed.

End BandAreas.
End RectPartition.

(** ** Running the methods on a store *)

Section RunRules.
Context {N : Type} `{Number N}.
Implicit Types st : gmap RectObj.loc (Rect.t N).

Lemma wp_ret {A : Type} (v : A) st (Q : A -> gmap RectObj.loc (Rect.t N) -> Prop) :
  Q v st -> wp (mret v) st Q.
Proof. intros HQ. exists v, st. split; [reflexivity | exact HQ]. Qed.

Lemma wp_bind {A B : Type} (m : RectObj.M A) (k : A -> RectObj.M B) st
    (Q : B -> gmap RectObj.loc (Rect.t N) -> Prop) :
  wp m st (fun v st' => wp (k v) st' Q) -> wp (m ≫= k) st Q.
Proof.
  intros (v & st' & Hm & (w & st'' & Hk & HQ)). exists w, st''.
  split; [| exact HQ].
  unfold mbind, RectObj.M_bind. rewrite Hm. exact Hk.
Qed.

Lemma wp_mono {A : Type} (m : RectObj.M A) st
    (Q Q' : A -> gmap RectObj.loc (Rect.t N) -> Prop) :
  wp m st Q -> (forall v st', Q v st' -> Q' v st') -> wp m st Q'.
Proof. intros (v & st' & Hm & HQ) HQQ'. exists v, st'. auto. Qed.

Lemma wp_get (f : Rect.t N -> N) (o : RectObj.loc) (r : Rect.t N) st
    (Q : N -> gmap RectObj.loc (Rect.t N) -> Prop) :
  st !! o = Some r -> Q (f r) st -> wp (RectObj.get f o) st Q.
Proof.
  intros Ho HQ. exists (f r), st. split; [| exact HQ].
  unfold RectObj.get. rewrite Ho. reflexivity.
Qed.

Lemma wp_set (upd : N -> Rect.t N -> Rect.t N) (o : RectObj.loc) (v : N)
    (r : Rect.t N) st (Q : unit -> gmap RectObj.loc (Rect.t N) -> Prop) :
  st !! o = Some r -> Q tt (<[o := upd v r]> st) -> wp (RectObj.set upd o v) st Q.
Proof.
  intros Ho HQ. exists tt, (<[o := upd v r]> st). split; [| exact HQ].
  unfold RectObj.set. rewrite Ho. reflexivity.
Qed.

Lemma wp_new (x y w h : N) st (Q : RectObj.loc -> gmap RectObj.loc (Rect.t N) -> Prop) :
  (forall l, st !! l = None -> Q l (<[l := Rect.mk x y w h]> st)) ->
  wp (RectObj.new x y w h) st Q.
Proof.
  intros HQ. eexists _, _. split; [reflexivity |].
  apply HQ. apply not_elem_of_dom, is_fresh.
Qed.

Lemma wp_run {A : Type} (m : RectObj.M A) st (v : A) st' :
  wp m st (fun w st'' => w = v /\ st'' = st') -> m st = Some (v, st').
Proof. intros (w & st'' & Hm & -> & ->). exact Hm. Qed.

(** Facts about what has been allocated since a store [st0]. *)

Lemma allocated_nil st0 st : st0 ⊆ st -> allocated st0 st [] [].
Proof. intros ?. repeat split; [done | constructor..]. Qed.

Lemma allocated_lookup st0 st ls rs (o : RectObj.loc) (r : Rect.t N) :
  allocated st0 st ls rs -> st0 !! o = Some r -> st !! o = Some r.
Proof. intros (Hsub & _) Ho. eapply lookup_weaken; eauto. Qed.

Lemma allocated_push st0 st ls rs (l : RectObj.loc) (r : Rect.t N) :
  allocated st0 st ls rs -> st !! l = None ->
  allocated st0 (<[l := r]> st) (ls ++ [l]) (rs ++ [r]).
Proof.
  intros (Hsub & Hfresh & Hnd & Hval) Hl. repeat split.
  - etrans; [exact Hsub |]. by apply insert_subseteq.
  - apply Forall_app. split; [exact Hfresh |].
    constructor; [| constructor].
    eapply lookup_weaken_None; eauto.
  - apply NoDup_app. split; [exact Hnd |]. split; [| apply NoDup_singleton].
    intros o Ho ->%list_elem_of_singleton.
    apply list_elem_of_lookup_1 in Ho as [k Hk].
    destruct (Forall2_lookup_l _ _ _ _ _ Hval Hk) as (? & _ & ?).
    congruence.
  - apply Forall2_app.
    + eapply Forall2_impl; [exact Hval |]. intros o r' Ho. cbn in Ho.
      rewrite lookup_insert_ne; [exact Ho | congruence].
    + constructor; [| constructor]. apply lookup_insert_eq.
Qed.

End RunRules.

(** One step of a run: a read of a field whose object is known (by [tac]),
    or the end of the run. *)
Ltac wp_reads tac :=
  repeat (apply wp_bind; eapply wp_get; [solve [tac] | cbn beta]).

Section RunSpecs.
Context {N : Type} `{Number N}.
Implicit Types st : gmap RectObj.loc (Rect.t N).
Implicit Types this rect a b : RectObj.loc.

(** [this.intersection(rect)] answers whether the static intersection of
    the two values exists, and in that case leaves it in [this]. *)
Lemma prototype_intersection_spec st this rect (s r : Rect.t N) :
  st !! this = Some s -> st !! rect = Some r ->
  wp (RectObj.prototype_intersection this rect) st (fun ok st' =>
    match Rect.intersection s r with
    | Some i => ok = true /\ st' = <[this := i]> st
    | None => ok = false /\ st' = st
    end).
Proof.
  intros Hs Hr. unfold RectObj.prototype_intersection, Rect.intersection.
  wp_reads eassumption.
  destruct (num_leb _ _); [| apply wp_ret; done].
  wp_reads eassumption.
  destruct (num_leb _ _); [| apply wp_ret; done].
  apply wp_bind. eapply wp_set; [eassumption |].
  apply wp_bind. eapply wp_set; [apply lookup_insert_eq |].
  apply wp_bind. eapply wp_set; [apply lookup_insert_eq |].
  apply wp_bind. eapply wp_set; [apply lookup_insert_eq |].
  apply wp_ret. split; [reflexivity |].
  rewrite !insert_insert_eq. reflexivity.
Qed.

Lemma intersection_spec st a b (ra rb : Rect.t N) :
  st !! a = Some ra -> st !! b = Some rb ->
  wp (RectObj.intersection a b) st (fun res st' =>
    match Rect.intersection ra rb with
    | Some i => exists l, res = Some l /\ st !! l = None /\ st' = <[l := i]> st
    | None => res = None /\ st' = st
    end).
Proof.
  intros Ha Hb. unfold RectObj.intersection, Rect.intersection.
  wp_reads eassumption.
  destruct (num_leb _ _); [| apply wp_ret; done].
  wp_reads eassumption.
  destruct (num_leb _ _); [| apply wp_ret; done].
  apply wp_bind, wp_new. intros l Hl. apply wp_ret. eauto.
Qed.

Lemma clone_spec st this (s : Rect.t N) :
  st !! this = Some s ->
  wp (RectObj.clone this) st (fun l st' =>
    st !! l = None /\ st' = <[l := Rect.clone s]> st).
Proof.
  intros Hs. unfold RectObj.clone. wp_reads eassumption.
  apply wp_new. intros l Hl. done.
Qed.

Lemma unaffected_spec st (res : option RectObj.loc) (i : option (Rect.t N)) :
  match res, i with
  | Some l, Some ri => st !! l = Some ri
  | None, None => True
  | _, _ => False
  end ->
  wp (RectObj.unaffected res) st (fun v st' =>
    v = Rect.unaffected i /\ st' = st).
Proof.
  destruct res as [l|], i as [ri|]; try done; intros Hl; cbn.
  - wp_reads eassumption.
    destruct (num_truthy (Rect.height ri)); cbn.
    + wp_reads eassumption. apply wp_ret. done.
    + apply wp_ret. done.
  - apply wp_ret. done.
Qed.

End RunSpecs.

(** Steps of a run that has allocated since the store it started from:
    [Hinv] is the [allocated] fact of the current store. *)
Ltac wp_reads_in Hinv :=
  wp_reads ltac:(eapply allocated_lookup; [exact Hinv | eassumption]).

Ltac wp_new_in Hinv :=
  apply wp_bind, wp_new;
  let l := fresh "l" in
  let Hl := fresh "Hl" in
  intros l Hl;
  match goal with
  | |- wp _ (<[l := ?r]> _) _ =>
      apply (allocated_push _ _ _ _ l r Hinv) in Hl
  end;
  clear Hinv; rename Hl into Hinv; cbn beta.

Ltac wp_if :=
  match goal with
  | |- wp (if ?c then _ else _) _ _ => destruct c
  end.

Section RunDifference.
Context {N : Type} `{Number N}.
Implicit Types st : gmap RectObj.loc (Rect.t N).
Implicit Types a b : RectObj.loc.

(** [Rect.difference(a, b)] allocates the rectangles that the function on
    values lists, in that order, and touches nothing else. *)
Lemma difference_spec st a b (ra rb : Rect.t N) :
  st !! a = Some ra -> st !! b = Some rb ->
  wp (RectObj.difference a b) st (fun ls st' =>
    allocated st st' ls (Rect.difference ra rb)).
Proof.
  intros Ha Hb. unfold RectObj.difference.
  apply wp_bind. eapply wp_mono; [apply (intersection_spec _ _ _ _ _ Ha Hb) |].
  intros res st1 Hres. cbn beta.
  assert (st ⊆ st1 /\
          match res, Rect.intersection ra rb with
          | Some l, Some ri => st1 !! l = Some ri
          | None, None => True
          | _, _ => False
          end) as [Hsub Hun].
  { destruct (Rect.intersection ra rb).
    - destruct Hres as (l & -> & Hl & ->).
      split; [by apply insert_subseteq | apply lookup_insert_eq].
    - destruct Hres as [-> ->]. done. }
  apply wp_bind. eapply wp_mono; [apply (unaffected_spec _ _ _ Hun) |].
  intros skip st2 [-> ->]. cbn beta.
  pose proof (allocated_nil _ _ Hsub) as Hinv. clear Hres Hun Hsub.
  unfold Rect.difference.
  destruct (Rect.unaffected (Rect.intersection ra rb)).
  - apply wp_bind. eapply wp_mono.
    { apply clone_spec. eapply allocated_lookup; [exact Hinv | exact Ha]. }
    intros l st3 [Hl ->]. apply wp_ret.
    exact (allocated_push _ _ _ _ l _ Hinv Hl).
  - wp_reads_in Hinv.
    apply wp_bind. wp_if;
      [wp_reads_in Hinv; wp_new_in Hinv; wp_reads_in Hinv |];
      apply wp_ret; cbn beta iota;
      (apply wp_bind; wp_if;
       [wp_reads_in Hinv; wp_new_in Hinv |];
       apply wp_ret; cbn beta iota);
      wp_reads_in Hinv;
      (apply wp_bind; wp_if;
       [wp_reads_in Hinv; wp_new_in Hinv |];
       apply wp_ret; cbn beta iota);
      (apply wp_bind; wp_if;
       [wp_new_in Hinv |];
       apply wp_ret; cbn beta iota);
      apply wp_ret; exact Hinv.
Qed.

End RunDifference.

(** ** Box.distance *)

Section BoxDistance.
Local Open Scope R_scope.
Implicit Types (box : Box.t R) (coord : Coordinate.t R).



Lemma contains_coordinate box coord :
  Box.contains (Some box) (Some (Box.OfCoordinate coord)) = true <->
    Box.left box <= Coordinate.x coord <= Box.right box /\
    Box.top box <= Coordinate.y coord <= Box.bottom box.
Proof.
  unfold Box.contains. real_ops.
  rewrite !andb_true_iff, !Rleb_true. tauto.
Qed.


End BoxDistance.

(** ** Size.prototype.scaleToFit *)

Section SizeScaleToFit.
Local Open Scope R_scope.
Implicit Types this target : Size.t R.

Lemma scaleToFit_wide this target :
  Size.aspectRatio this > Size.aspectRatio target ->
  Size.scaleToFit this target =
    Size.mk (Size.width this * (Size.width target / Size.width this))
            (Size.height this * (Size.width target / Size.width this)).
Proof.
  intros Hr. unfold Size.scaleToFit, Size.scale. cbn [isNumber]. real_ops.
  apply Rltb_true in Hr. rewrite Hr. reflexivity.
Qed.

Lemma scaleToFit_tall this target :
  ~ Size.aspectRatio this > Size.aspectRatio target ->
  Size.scaleToFit this target =
    Size.mk (Size.width this * (Size.height target / Size.height this))
            (Size.height this * (Size.height target / Size.height this)).
Proof.
  intros Hr. unfold Size.scaleToFit, Size.scale. cbn [isNumber]. real_ops.
  assert (Hf : Rltb (Size.aspectRatio target) (Size.aspectRatio this) = false).
  { apply Rltb_false. unfold Size.aspectRatio in *. real_ops. lra. }
  rewrite Hf. reflexivity.
Qed.

End SizeScaleToFit.

(** ** Coordinate.prototype.normalize *)

Section CoordinateNormalize.
Local Open Scope R_scope.
Implicit Types this : Coordinate.t R.


Lemma magnitude_nonneg this : 0 <= Coordinate.magnitude this.
Proof. unfold Coordinate.magnitude. real_ops. apply sqrt_pos. Qed.



End CoordinateNormalize.

(** ** Runs of rect.js that do not round *)

Ltac float_ops :=
  cbn [num_zero num_one num_add num_sub num_mul num_div num_sqrt num_leb
       num_ltb num_eqb num_max num_min num_truthy Number_float] in *.

(** What an exact subtraction leaves to rewrite with. *)
Ltac exact_subs :=
  repeat match goal with
    | H : _ && _ = true |- _ => apply andb_true_iff in H as [? ?]
    | H : Binary64.exact_sub _ _ = true |- _ =>
        apply exact_sub_real in H as (_ & _ & ? & ?)
    end.

Section ExactRect.
Import Binary64.
Implicit Types a b i : Rect.t float.

Lemma edges_exact a :
  Exact.edges a = true ->
  finite (Rect.left a) = true /\ finite (Rect.top a) = true /\
  finite (Rect.width a) = true /\ finite (Rect.height a) = true /\
  finite (Rect.left a + Rect.width a)%float = true /\
  finite (Rect.top a + Rect.height a)%float = true /\
  real (Rect.left a + Rect.width a)%float
    = (real (Rect.left a) + real (Rect.width a))%R /\
  real (Rect.top a + Rect.height a)%float
    = (real (Rect.top a) + real (Rect.height a))%R.
Proof.
  unfold Exact.edges. rewrite andb_true_iff. intros [Hx Hy].
  apply exact_add_real in Hx as (? & ? & ? & ?).
  apply exact_add_real in Hy as (? & ? & ? & ?).
  repeat split; assumption.
Qed.

Lemma intersection_exact a b :
  Exact.intersection a b = true ->
  option_map Exact.rect (Rect.intersection a b)
    = Rect.intersection (Exact.rect a) (Exact.rect b) /\
  forall i, Rect.intersection a b = Some i ->
    finite (Rect.left i) = true /\ finite (Rect.top i) = true /\
    finite (Rect.width i) = true /\ finite (Rect.height i) = true.
Proof.
  unfold Exact.intersection. rewrite !andb_true_iff. intros [[Ha Hb] Hs].
  apply edges_exact in Ha as (Fal & Fat & Faw & Fah & Far & Fab & Rar & Rab).
  apply edges_exact in Hb as (Fbl & Fbt & Fbw & Fbh & Fbr & Fbb & Rbr & Rbb).
  unfold Rect.intersection, Exact.rect in *.
  cbn [Rect.left Rect.top Rect.width Rect.height] in *.
  float_ops. real_ops.
  destruct (max_real _ _ Fal Fbl) as [Fx0 Rx0].
  destruct (min_real _ _ Far Fbr) as [Fx1 Rx1].
  destruct (max_real _ _ Fat Fbt) as [Fy0 Ry0].
  destruct (min_real _ _ Fab Fbb) as [Fy1 Ry1].
  rewrite Rar, Rbr in Rx1. rewrite Rab, Rbb in Ry1.
  rewrite (leb_real _ _ Fx0 Fx1), (leb_real _ _ Fy0 Fy1) in *.
  rewrite Rx0, Rx1, Ry0, Ry1 in *.
  destruct (Rleb _ _); [| split; [reflexivity | discriminate]].
  destruct (Rleb _ _); [| split; [reflexivity | discriminate]].
  apply andb_true_iff in Hs as [Hw Hh].
  apply exact_sub_real in Hw as (_ & _ & Fw & Rw).
  apply exact_sub_real in Hh as (_ & _ & Fh & Rh).
  split.
  - cbn. rewrite Rw, Rh, Rx0, Rx1, Ry0, Ry1. reflexivity.
  - intros i [= <-]. cbn. auto.
Qed.

Lemma unaffected_exact (o : option (Rect.t float)) (o' : option (Rect.t R)) :
  option_map Exact.rect o = o' ->
  (forall i, o = Some i ->
     finite (Rect.width i) = true /\ finite (Rect.height i) = true) ->
  Rect.unaffected o = Rect.unaffected o'.
Proof.
  intros <- Hf. destruct o as [i|]; [| reflexivity].
  destruct (Hf i eq_refl) as [Fw Fh]. cbn [option_map Rect.unaffected].
  rewrite (truthy_real _ Fw), (truthy_real _ Fh). reflexivity.
Qed.

Lemma difference_exact a b :
  Exact.difference a b = true ->
  map Exact.rect (Rect.difference a b)
    = Rect.difference (Exact.rect a) (Exact.rect b).
Proof.
  unfold Exact.difference. rewrite andb_true_iff. intros [Hi Hd].
  destruct (intersection_exact a b Hi) as [Ho Hf].
  assert (Hu : Rect.unaffected (Rect.intersection a b)
               = Rect.unaffected (Rect.intersection (Exact.rect a) (Exact.rect b))).
  { apply unaffected_exact; [exact Ho |]. intros i Hs.
    destruct (Hf i Hs) as (_ & _ & ? & ?). auto. }
  unfold Rect.difference. rewrite <- Hu.
  destruct (Rect.unaffected (Rect.intersection a b)); [reflexivity |].
  clear Hu Ho Hf.
  unfold Exact.intersection in Hi. apply andb_true_iff in Hi as [Hi _].
  apply andb_true_iff in Hi as [Ha Hb].
  apply edges_exact in Ha as (Fal & Fat & Faw & Fah & Far & Fab & Rar & Rab).
  apply edges_exact in Hb as (Fbl & Fbt & Fbw & Fbh & Fbr & Fbb & Rbr & Rbb).
  unfold Exact.rect in *.
  cbn [Rect.left Rect.top Rect.width Rect.height] in *.
  float_ops. real_ops.
  rewrite (ltb_real _ _ Fat Fbt), (ltb_real _ _ Fbb Fab),
    (ltb_real _ _ Fal Fbl), (ltb_real _ _ Fbr Far) in *.
  rewrite Rar, Rab, Rbr, Rbb in *.
  destruct (Rltb (real (Rect.top a)) (real (Rect.top b)));
    destruct (Rltb (real (Rect.top b) + real (Rect.height b))
                   (real (Rect.top a) + real (Rect.height a)));
    destruct (Rltb (real (Rect.left a)) (real (Rect.left b)));
    destruct (Rltb (real (Rect.left b) + real (Rect.width b))
                   (real (Rect.left a) + real (Rect.width a)));
    exact_subs; cbn [map app Rect.left Rect.top Rect.width Rect.height];
    repeat first
      [ rewrite Rar | rewrite Rab | rewrite Rbr | rewrite Rbb
      | match goal with H : real (_ - _)%float = _ |- _ => rewrite H end ];
    reflexivity.
Qed.

End ExactRect.

Section AnyBands.
Context {N : Type} `{Number N}.
Local Open Scope num_scope.

(** The array of [Rect.difference], whatever the numbers are: the four
    bands in the order top, bottom, left, right, each when its test holds;
    the left and the right band span the working [top] and [height]. *)
Lemma difference_in_bands (a b : Rect.t N) :
  Rect.unaffected (Rect.intersection a b) = false ->
  Rect.difference a b =
    emitted (Rect.top b >? Rect.top a)
      (Rect.mk (Rect.left a) (Rect.top a) (Rect.width a)
               (Rect.top b - Rect.top a)) ++
    emitted (Rect.top b + Rect.height b <? Rect.top a + Rect.height a)
      (Rect.mk (Rect.left a) (Rect.top b + Rect.height b) (Rect.width a)
               (Rect.top a + Rect.height a - (Rect.top b + Rect.height b))) ++
    emitted (Rect.left b >? Rect.left a)
      (Rect.mk (Rect.left a) (working_top a b)
               (Rect.left b - Rect.left a) (working_height a b)) ++
    emitted (Rect.left b + Rect.width b <? Rect.left a + Rect.width a)
      (Rect.mk (Rect.left b + Rect.width b) (working_top a b)
               (Rect.left a + Rect.width a - (Rect.left b + Rect.width b))
               (working_height a b)).
Proof.
  intros Hu. unfold Rect.difference. rewrite Hu.
  unfold emitted, working_height, working_top.
  destruct (Rect.top b >? Rect.top a);
    destruct (Rect.top b + Rect.height b <? Rect.top a + Rect.height a);
    destruct (Rect.left b >? Rect.left a);
    destruct (Rect.left b + Rect.width b <? Rect.left a + Rect.width a);
    reflexivity.
Qed.

End AnyBands.

Section ExactRectMore.
Import Binary64.
Implicit Types a b i r s : Rect.t float.
Local Open Scope R_scope.

Lemma intersects_exact a b :
  Exact.edges a = true -> Exact.edges b = true ->
  Rect.intersects a b = Rect.intersects (Exact.rect a) (Exact.rect b).
Proof.
  intros Ha Hb.
  apply edges_exact in Ha as (Fal & Fat & Faw & Fah & Far & Fab & Rar & Rab).
  apply edges_exact in Hb as (Fbl & Fbt & Fbw & Fbh & Fbr & Fbb & Rbr & Rbb).
  unfold Rect.intersects, Exact.rect.
  cbn [Rect.left Rect.top Rect.width Rect.height]. float_ops. real_ops.
  rewrite (leb_real _ _ Fal Fbr), (leb_real _ _ Fbl Far),
    (leb_real _ _ Fat Fbb), (leb_real _ _ Fbt Fab).
  rewrite Rar, Rab, Rbr, Rbb. reflexivity.
Qed.

(** [0 <= x] on binary64 is [0 <= x] on the value. *)
Lemma nonneg_real (x : float) :
  finite x = true -> PrimFloat.leb 0 x = true -> 0 <= real x.
Proof.
  intros Fx Hx. change (PrimFloat.leb PrimFloat.zero x = true) in Hx.
  rewrite (leb_real _ _ finite_zero Fx), real_zero in Hx.
  apply Rleb_true, Hx.
Qed.

Lemma pos_real (x : float) :
  finite x = true -> PrimFloat.ltb 0 x = true <-> 0 < real x.
Proof.
  intros Fx. change (PrimFloat.ltb PrimFloat.zero x = true <-> 0 < real x).
  rewrite (ltb_real _ _ finite_zero Fx), real_zero.
  apply Rltb_true.
Qed.

Lemma real_scaled (x : float) : real x = IZR (scaled x) * / IZR unit.
Proof. reflexivity. Qed.

(** Two rectangles whose columns and rows meet, as integers, overlap. *)
Lemma overlap_scaled r s :
  (Z.max (scaled (Rect.left r)) (scaled (Rect.left s))
   < Z.min (scaled (Rect.left r) + scaled (Rect.width r))
           (scaled (Rect.left s) + scaled (Rect.width s)))%Z ->
  (Z.max (scaled (Rect.top r)) (scaled (Rect.top s))
   < Z.min (scaled (Rect.top r) + scaled (Rect.height r))
           (scaled (Rect.top s) + scaled (Rect.height s)))%Z ->
  overlap (Exact.rect r) (Exact.rect s).
Proof.
  intros Hx Hy.
  pose proof unit_pos as Hu.
  assert (Hi : 0 < / IZR unit) by (apply Rinv_0_lt_compat, Hu).
  remember (Z.max (scaled (Rect.left r)) (scaled (Rect.left s))) as x0 eqn:E0.
  remember (Z.min (scaled (Rect.left r) + scaled (Rect.width r))
                  (scaled (Rect.left s) + scaled (Rect.width s))) as x1 eqn:E1.
  remember (Z.max (scaled (Rect.top r)) (scaled (Rect.top s))) as y0 eqn:E2.
  remember (Z.min (scaled (Rect.top r) + scaled (Rect.height r))
                  (scaled (Rect.top s) + scaled (Rect.height s))) as y1 eqn:E3.
  assert (IZR (scaled (Rect.left r)) <= IZR x0) by (apply IZR_le; lia).
  assert (IZR (scaled (Rect.left s)) <= IZR x0) by (apply IZR_le; lia).
  assert (IZR x1 <= IZR (scaled (Rect.left r)) + IZR (scaled (Rect.width r)))
    by (rewrite <- plus_IZR; apply IZR_le; lia).
  assert (IZR x1 <= IZR (scaled (Rect.left s)) + IZR (scaled (Rect.width s)))
    by (rewrite <- plus_IZR; apply IZR_le; lia).
  assert (IZR (scaled (Rect.top r)) <= IZR y0) by (apply IZR_le; lia).
  assert (IZR (scaled (Rect.top s)) <= IZR y0) by (apply IZR_le; lia).
  assert (IZR y1 <= IZR (scaled (Rect.top r)) + IZR (scaled (Rect.height r)))
    by (rewrite <- plus_IZR; apply IZR_le; lia).
  assert (IZR y1 <= IZR (scaled (Rect.top s)) + IZR (scaled (Rect.height s)))
    by (rewrite <- plus_IZR; apply IZR_le; lia).
  apply IZR_lt in Hx, Hy. clear E0 E1 E2 E3.
  exists ((IZR x0 + IZR x1) / 2 * / IZR unit),
         ((IZR y0 + IZR y1) / 2 * / IZR unit).
  unfold inside, Exact.rect. cbn [Rect.left Rect.top Rect.width Rect.height].
  rewrite !real_scaled, <- !Rmult_plus_distr_r.
  repeat split; apply Rmult_lt_compat_r; try assumption; lra.
Qed.

(** The area of the value of a rectangle, as an integer over [unit^2]. *)
Lemma area_scaled r :
  Rect.area (Exact.rect r)
  = IZR (scaled (Rect.width r) * scaled (Rect.height r))
    * (/ IZR unit * / IZR unit).
Proof.
  unfold Rect.area, Exact.rect. cbn [Rect.width Rect.height]. real_ops.
  rewrite !real_scaled, mult_IZR. ring.
Qed.

Lemma total_area_scaled (l : list (Rect.t float)) :
  total_area (map Exact.rect l)
  = IZR (fold_right Z.add 0%Z
           (map (fun r => (scaled (Rect.width r) * scaled (Rect.height r))%Z) l))
    * (/ IZR unit * / IZR unit).
Proof.
  unfold total_area. induction l as [|r l IH]; cbn [map fold_right].
  - rewrite Rmult_0_l. reflexivity.
  - rewrite IH, area_scaled, plus_IZR. ring.
Qed.

End ExactRectMore.

(** Comparisons of binary64 numbers, decided on their ranks: every
    comparison, [Math.max], [Math.min] and truth test in sight is rewritten
    to its rank, the ranks are named, and the goal is left to the integers. *)
Ltac rank_all :=
  float_ops;
  repeat rewrite ?leb_rank, ?ltb_rank, ?eqb_rank, ?is_nan_rank, ?is_zero_rank,
    ?float_max_rank, ?float_min_rank in *;
  repeat match goal with
    | H : context [Binary64.rank _] |- _ => revert H
    end;
  repeat match goal with
    | |- context [Binary64.rank ?x] =>
        generalize (Binary64.rank x); intros [?|]
    end;
  cbn [negb andb orb]; intros;
  repeat match goal with
    | H : _ && _ = true |- _ => apply andb_true_iff in H as [? ?]
    | H : false = true |- _ => discriminate H
    | H : true = false |- _ => discriminate H
    | H : _ /\ _ |- _ => destruct H
    end;
  rewrite ?andb_true_iff; repeat split; try reflexivity; try lia.

Section Binary64Contains.
Implicit Types (box u v w : Box.t float) (coord p : Coordinate.t float).


End Binary64Contains.

(** ** Runs of box.js and coordinate.js that do not round *)

Section ExactBox.
Import Binary64.
Implicit Types (box : Box.t float) (coord : Coordinate.t float).
Local Open Scope R_scope.





End ExactBox.

Section ExactCoordinate.
Import Binary64.
Implicit Types this : Coordinate.t float.
Local Open Scope R_scope.



End ExactCoordinate.

Section ExactRoundTrip.
Import Binary64.
Local Open Scope R_scope.

Lemma round_trip_exact (r : Rect.t float) :
  Exact.round_trip r = true ->
  finite (Rect.left r) = true /\ finite (Rect.top r) = true /\
  finite (Rect.width r) = true /\ finite (Rect.height r) = true /\
  finite (Rect.width (Rect.createFromBox (Rect.toBox r))) = true /\
  finite (Rect.height (Rect.createFromBox (Rect.toBox r))) = true /\
  Exact.rect (Rect.createFromBox (Rect.toBox r)) = Exact.rect r.
Proof.
  unfold Exact.round_trip. rewrite !andb_true_iff. intros [[He Hw] Hh].
  apply edges_exact in He as (Fl & Ft & Fw & Fh & _ & _ & Rr & Rb).
  apply exact_sub_real in Hw as (_ & _ & Fw' & Rw).
  apply exact_sub_real in Hh as (_ & _ & Fh' & Rh).
  unfold Rect.createFromBox, Rect.toBox, Exact.rect.
  cbn [Box.left Box.top Box.right Box.bottom
       Rect.left Rect.top Rect.width Rect.height]. float_ops.
  repeat split; try assumption.
  rewrite Rw, Rh, Rr, Rb. f_equal; ring.
Qed.

End ExactRoundTrip.

Section ExactArea.
Local Open Scope R_scope.

Lemma area_exact (r : Rect.t float) :
  Exact.area r = true ->
  Binary64.real (Rect.area r) = Rect.area (Exact.rect r).
Proof.
  intros He. apply exact_mul_real in He as (_ & _ & _ & Hr). exact Hr.
Qed.

Lemma total_area_exact (l : list (Rect.t float)) :
  forallb Exact.area l = true ->
  fold_right Rplus 0 (map (fun r => Binary64.real (Rect.area r)) l)
  = total_area (map Exact.rect l).
Proof.
  unfold total_area. induction l as [| r l IH]; [reflexivity |].
  cbn [forallb map fold_right]. intros He.
  apply andb_true_iff in He as [Hr Hl].
  rewrite (area_exact r Hr), (IH Hl). reflexivity.
Qed.

End ExactArea.

(** * The claims *)

Section Claims.
Local Open Scope R_scope.

(** ** Rect.intersection against Rect.intersects *)

(** An operand of negative extent: [Rect(0, 0, 10, 10)] and
    [Rect(5, 5, -2, -2)] pass the four comparisons of [Rect.intersects], yet
    [Rect.intersection] finds the greatest left edge, 5, beyond the least
    right edge, 3. *)
Lemma negative_extent_operand :
  Rect.intersects (Rect.mk 0 0 10 10) (Rect.mk 5 5 (-2) (-2)) = true /\
  Rect.intersection (Rect.mk 0 0 10 10) (Rect.mk 5 5 (-2) (-2)) = None.
Proof.
  split.
  - apply intersects_true. cbn. lra.
  - apply intersection_None. left. cbn. unfold Rmax, Rmin.
    repeat destruct Rle_dec; lra.
Qed.

(** C2, as stated, fails: for [a = Rect(0, 0, 10, 10)] and
    [b = Rect(5, 5, -2, -2)], [Rect.intersects(a, b)] is true and
    [Rect.intersection(a, b)] is [null]. *)
Lemma intersection_null_but_intersects :
  let a := Rect.mk 0 0 10 10 in
  let b := Rect.mk 5 5 (-2) (-2) in
  Rect.intersects a b = true /\ Rect.intersection a b = None /\
  ~ (Rect.intersection a b = None <-> Rect.intersects a b = false).
Proof.
  intros a b. destruct negative_extent_operand as [Hi Hn].
  split; [exact Hi |]. split; [exact Hn |].
  intros [Hf _]. specialize (Hf Hn). unfold a, b in Hf. congruence.
Qed.

(** C2, amended: for rectangles whose widths and heights are not negative,
    [Rect.intersection(a, b)] is [null] exactly when [Rect.intersects(a, b)]
    is false. *)
Theorem intersection_null_iff_not_intersects (a b : Rect.t R) :
  0 <= Rect.width a -> 0 <= Rect.height a ->
  0 <= Rect.width b -> 0 <= Rect.height b ->
  Rect.intersection a b = None <-> Rect.intersects a b = false.
Proof.
  intros Hwa Hha Hwb Hhb. split.
  - intros Hn. destruct (Rect.intersects a b) eqn:Hi; [| reflexivity].
    destruct (intersects_intersection a b Hwa Hha Hwb Hhb Hi) as [i Hs].
    congruence.
  - intros Hf. destruct (Rect.intersection a b) as [i|] eqn:Hs; [| reflexivity].
    apply intersection_intersects in Hs. congruence.
Qed.

Lemma intersection_null_iff_not_intersects_witness :
  Rect.intersection (Rect.mk 0 0 10 10) (Rect.mk 20 0 5 5) = None <->
  Rect.intersects (Rect.mk 0 0 10 10) (Rect.mk 20 0 5 5) = false.
Proof.
  apply (intersection_null_iff_not_intersects
           (Rect.mk 0 0 10 10) (Rect.mk 20 0 5 5)); cbn; lra.
Defined.

(** ** Rect.difference *)

(** C1, as stated, fails.  On binary64, for [a = Rect(0, 0.3, 0.5, 1)] and
    [b = Rect(0, 0, 0.1, 0.9)], which intersect and whose widths and heights
    are not negative, [Rect.difference(a, b)] is the bottom band
    [Rect(0, 0.9, 0.5, 0.4)] and the right band
    [Rect(0.1, 0.3, 0.4, 0.6000000000000001)]: the height of the right band
    was rounded up, the two rectangles overlap, and the areas do not add up
    to the area of [a].  And for [a = Rect(0, 0, 10, 10)] and
    [b = Rect(5, 5, -2, -2)], where nothing is rounded,
    [Rect.intersects(a, b)] is true and [Rect.intersection(a, b)] is [null]:
    there is no rectangle whose area could enter the sum. *)
Lemma difference_not_a_partition :
  (let a := Rect.mk 0 0x1.3333333333333p-2 0.5 1 in
   let b := Rect.mk 0 0 0x1.999999999999ap-4 0x1.ccccccccccccdp-1 in
   Rect.intersects a b = true /\
   (0 <=? Rect.width a) = true /\ (0 <=? Rect.height a) = true /\
   (0 <=? Rect.width b) = true /\ (0 <=? Rect.height b) = true /\
   exists i r s,
     Rect.intersection a b = Some i /\
     Rect.difference a b = [r; s] /\
     overlap (Exact.rect r) (Exact.rect s) /\
     ~ non_overlapping (map Exact.rect (Rect.difference a b)) /\
     (total_area (map Exact.rect (Rect.difference a b))
      + Rect.area (Exact.rect i) <> Rect.area (Exact.rect a))%R /\
     (exists o, Rect.intersection r s = Some o /\
                (0 <? Rect.width o) = true /\ (0 <? Rect.height o) = true) /\
     (Rect.area r + Rect.area s + Rect.area i =? Rect.area a) = false)%float /\
  (let a := Rect.mk 0 0 10 10 in
   let b := Rect.mk 5 5 (-2) (-2) in
   Exact.difference a b = true /\
   Rect.intersects a b = true /\
   (0 <=? Rect.width a) = true /\ (0 <=? Rect.height a) = true /\
   Rect.intersection a b = None)%float.
Proof.
  split.
  - intros a b.
    split; [vm_compute; reflexivity |].
    split; [vm_compute; reflexivity |].
    split; [vm_compute; reflexivity |].
    split; [vm_compute; reflexivity |].
    split; [vm_compute; reflexivity |].
    assert (Hov : overlap
      (Exact.rect (Rect.mk 0 0x1.ccccccccccccdp-1 0.5 0x1.999999999999ap-2)%float)
      (Exact.rect (Rect.mk 0x1.999999999999ap-4 0x1.3333333333333p-2
                     0x1.999999999999ap-2 0x1.3333333333334p-1)%float)).
    { apply overlap_scaled; vm_compute; reflexivity. }
    eexists _, _, _.
    split; [vm_compute; reflexivity |].
    split; [vm_compute; reflexivity |].
    split; [exact Hov |].
    split.
    { replace (Rect.difference a b) with
        [Rect.mk 0 0x1.ccccccccccccdp-1 0.5 0x1.999999999999ap-2;
         Rect.mk 0x1.999999999999ap-4 0x1.3333333333333p-2
           0x1.999999999999ap-2 0x1.3333333333334p-1]%float
        by (vm_compute; reflexivity).
      intros Hno. cbn [map] in Hno. inversion Hno as [| ? ? Hfa _]; subst.
      inversion Hfa as [| ? ? Hrs _]; subst. exact (Hrs Hov). }
    split.
    { rewrite total_area_scaled, !area_scaled, <- Rmult_plus_distr_r,
        <- plus_IZR.
      intros E. apply Rmult_eq_reg_r in E.
      - apply eq_IZR in E. vm_compute in E. discriminate E.
      - pose proof unit_pos as Hu.
        apply Rmult_integral_contrapositive_currified;
          apply Rinv_neq_0_compat; lra. }
    split; [| vm_compute; reflexivity].
    eexists. split; [vm_compute; reflexivity |].
    split; vm_compute; reflexivity.
  - intros a b. repeat split; vm_compute; reflexivity.
Qed.

(** C1, amended.  Whatever the numbers are, when the intersection has a
    width and a height, the array of [Rect.difference(a, b)] is the top, the
    bottom, the left and the right band, in that order, each present when
    its test holds, and the left and the right band span the working [top]
    and [height], which the top and the bottom band have already shrunk.
    On binary64, when [Rect.intersects(a, b)] holds, the widths and heights
    of [a] and [b] are not negative, and no sum or difference of the run is
    rounded, the intersection exists, the rectangles of the array do not
    overlap one another, and their areas and the area of the intersection
    add up to the area of [a]; these are the numbers that [area()] returns
    when none of its products is rounded either. *)
Theorem difference_partitions_area :
  (forall (N : Type) (HN : Number N) (a b : Rect.t N),
     Rect.unaffected (Rect.intersection a b) = false ->
     Rect.difference a b =
       emitted (Rect.top b >? Rect.top a)
         (Rect.mk (Rect.left a) (Rect.top a) (Rect.width a)
                  (Rect.top b - Rect.top a)) ++
       emitted (Rect.top b + Rect.height b <? Rect.top a + Rect.height a)
         (Rect.mk (Rect.left a) (Rect.top b + Rect.height b) (Rect.width a)
                  (Rect.top a + Rect.height a - (Rect.top b + Rect.height b))) ++
       emitted (Rect.left b >? Rect.left a)
         (Rect.mk (Rect.left a) (working_top a b)
                  (Rect.left b - Rect.left a) (working_height a b)) ++
       emitted (Rect.left b + Rect.width b <? Rect.left a + Rect.width a)
         (Rect.mk (Rect.left b + Rect.width b) (working_top a b)
                  (Rect.left a + Rect.width a - (Rect.left b + Rect.width b))
                  (working_height a b)))%num /\
  (forall a b : Rect.t float,
     Exact.difference a b = true ->
     Rect.intersects a b = true ->
     (0 <=? Rect.width a)%float = true -> (0 <=? Rect.height a)%float = true ->
     (0 <=? Rect.width b)%float = true -> (0 <=? Rect.height b)%float = true ->
     exists i, Rect.intersection a b = Some i /\
       non_overlapping (map Exact.rect (Rect.difference a b)) /\
       total_area (map Exact.rect (Rect.difference a b))
         + Rect.area (Exact.rect i) = Rect.area (Exact.rect a) /\
       (forallb Exact.area (a :: i :: Rect.difference a b) = true ->
        fold_right Rplus 0
          (map (fun r => Binary64.real (Rect.area r)) (Rect.difference a b))
          + Binary64.real (Rect.area i) = Binary64.real (Rect.area a))).
Proof.
  split; [intros N HN a b; apply difference_in_bands |].
  intros a b He Hi Hwa Hha Hwb Hhb.
  pose proof (difference_exact a b He) as Hd.
  unfold Exact.difference in He. apply andb_true_iff in He as [He _].
  destruct (intersection_exact a b He) as [Ho _].
  unfold Exact.intersection in He. apply andb_true_iff in He as [He _].
  apply andb_true_iff in He as [Ha Hb].
  rewrite (intersects_exact a b Ha Hb) in Hi.
  apply edges_exact in Ha as (_ & _ & Faw & Fah & _).
  apply edges_exact in Hb as (_ & _ & Fbw & Fbh & _).
  apply (nonneg_real _ Faw) in Hwa. apply (nonneg_real _ Fah) in Hha.
  apply (nonneg_real _ Fbw) in Hwb. apply (nonneg_real _ Fbh) in Hhb.
  destruct (intersects_intersection (Exact.rect a) (Exact.rect b)
              Hwa Hha Hwb Hhb Hi) as [i' Hi'].
  rewrite Hi' in Ho.
  destruct (Rect.intersection a b) as [i|]; [| discriminate Ho].
  injection Ho as <-.
  exists i. split; [reflexivity |].
  destruct (intersection_partitions (Exact.rect a) (Exact.rect b) (Exact.rect i) Hi')
    as [Hno Hsum].
  rewrite <- Hd in Hno, Hsum.
  split; [exact Hno |]. split; [exact Hsum |].
  cbn [forallb]. intros Hp.
  apply andb_true_iff in Hp as [Hpa Hp]. apply andb_true_iff in Hp as [Hpi Hpl].
  rewrite (total_area_exact _ Hpl), (area_exact i Hpi), (area_exact a Hpa).
  exact Hsum.
Qed.

Lemma difference_partitions_area_witness :
  exists i, Rect.intersection (Rect.mk 0 0 10 10)%float (Rect.mk 5 5 10 10)%float = Some i /\
    non_overlapping
      (map Exact.rect (Rect.difference (Rect.mk 0 0 10 10)%float (Rect.mk 5 5 10 10)%float)) /\
    total_area
      (map Exact.rect (Rect.difference (Rect.mk 0 0 10 10)%float (Rect.mk 5 5 10 10)%float))
      + Rect.area (Exact.rect i) = Rect.area (Exact.rect (Rect.mk 0 0 10 10)%float) /\
    (forallb Exact.area
       ((Rect.mk 0 0 10 10)%float :: i
        :: Rect.difference (Rect.mk 0 0 10 10)%float (Rect.mk 5 5 10 10)%float) = true ->
     fold_right Rplus 0
       (map (fun r => Binary64.real (Rect.area r))
            (Rect.difference (Rect.mk 0 0 10 10)%float (Rect.mk 5 5 10 10)%float))
       + Binary64.real (Rect.area i) = Binary64.real (Rect.area (Rect.mk 0 0 10 10)%float)).
Proof.
  apply (proj2 difference_partitions_area
           (Rect.mk 0 0 10 10)%float (Rect.mk 5 5 10 10)%float);
    vm_compute; reflexivity.
Defined.

(** C5: when [Rect.intersection(a, b)] is [null], or has a width or a height
    of zero, and so whenever [Rect.intersects(a, b)] is false,
    [Rect.difference(a, b)] is the array of one clone of [a]. *)
Theorem difference_unaffected (a b : Rect.t R) :
  Rect.intersection a b = None \/
  (exists i, Rect.intersection a b = Some i /\
             (Rect.width i = 0 \/ Rect.height i = 0)) \/
  Rect.intersects a b = false ->
  Rect.difference a b = [Rect.clone a] /\
  Rect.clone a = a.
Proof.
  intros Hc. split; [| destruct a; reflexivity].
  apply difference_clone, unaffected_true.
  destruct Hc as [Hn | [Hz | Hf]]; [auto | auto |].
  left. destruct (Rect.intersection a b) as [i|] eqn:Hs; [| reflexivity].
  apply intersection_intersects in Hs. congruence.
Qed.

Lemma difference_unaffected_witness :
  Rect.difference (Rect.mk 0 0 10 10) (Rect.mk 10 0 5 5)
    = [Rect.clone (Rect.mk 0 0 10 10)] /\
  Rect.clone (Rect.mk 0 0 10 10) = Rect.mk 0 0 10 10.
Proof.
  apply (difference_unaffected (Rect.mk 0 0 10 10) (Rect.mk 10 0 5 5)).
  right. left. eexists. split.
  - apply intersection_Some. cbn. unfold Rmax, Rmin.
    repeat destruct Rle_dec; try lra. repeat split; lra.
  - left. cbn. unfold Rmax, Rmin. repeat destruct Rle_dec; lra.
Defined.

(** ** Rect.prototype.intersection *)

(** C3: [self.intersection(rect)] takes [x0], the greater of the lefts,
    [x1], the lesser of the rights, and [y0], [y1] likewise.  When
    [x0 <= x1] and [y0 <= y1] it overwrites [self] with
    [(x0, y0, x1 - x0, y1 - y0)] and returns true; otherwise it returns
    false and the store, [self] with it, is as before.  [rect] may be
    [self].  This holds whatever the numbers are.  In exact arithmetic the
    two tests are the inequalities of [R], equality included, and a touch on
    a boundary leaves a width or a height of zero. *)
Theorem prototype_intersection_overwrites :
  (forall (N : Type) (HN : Number N)
          (st : gmap RectObj.loc (Rect.t N)) (self rect : RectObj.loc)
          (s r : Rect.t N),
     st !! self = Some s -> st !! rect = Some r ->
     let x0 := num_max (Rect.left s) (Rect.left r) in
     let x1 := num_min (Rect.left s + Rect.width s)
                       (Rect.left r + Rect.width r) in
     let y0 := num_max (Rect.top s) (Rect.top r) in
     let y1 := num_min (Rect.top s + Rect.height s)
                       (Rect.top r + Rect.height r) in
     RectObj.prototype_intersection self rect st =
       if (x0 <=? x1) && (y0 <=? y1)
       then Some (true, <[self := Rect.mk x0 y0 (x1 - x0) (y1 - y0)]> st)
       else Some (false, st))%num /\
  (forall x0 x1 y0 y1 : R,
     ((x0 <=? x1)%num && (y0 <=? y1)%num = true <-> x0 <= x1 /\ y0 <= y1) /\
     (x0 = x1 -> (x1 - x0)%num = 0) /\
     (y0 = y1 -> (y1 - y0)%num = 0)).
Proof.
  split.
  - intros N HN st self rect s r Hs Hr x0 x1 y0 y1.
    destruct (prototype_intersection_spec st self rect s r Hs Hr)
      as (ok & st' & -> & Hpost).
    unfold Rect.intersection in Hpost. fold x0 x1 y0 y1 in Hpost.
    destruct (x0 <=? x1)%num, (y0 <=? y1)%num;
      destruct Hpost as [-> ->]; reflexivity.
  - intros x0 x1 y0 y1. real_ops.
    rewrite andb_true_iff, !Rleb_true.
    split; [done |]. split; intros ->; ring.
Qed.

Lemma prototype_intersection_overwrites_witness :
  (RectObj.prototype_intersection 1%positive 2%positive
     (<[1%positive := Rect.mk 0 0 10 10]> {[2%positive := Rect.mk 10 0 5 5]})
   = Some (true,
           <[1%positive := Rect.mk 10 0 0 5]>
             (<[1%positive := Rect.mk 0 0 10 10]>
                {[2%positive := Rect.mk 10 0 5 5]})))%float.
Proof.
  exact (proj1 prototype_intersection_overwrites PrimFloat.float Number_float
    (<[1%positive := Rect.mk 0 0 10 10]> {[2%positive := Rect.mk 10 0 5 5]})%float
    1%positive 2%positive (Rect.mk 0 0 10 10)%float (Rect.mk 10 0 5 5)%float
    eq_refl eq_refl).
Defined.

(** C4: run from one store, [a.intersection(b)] returns true exactly when
    the static [Rect.intersection(a, b)] returns a rectangle; the fields
    then left in [a] are those of the rectangle returned; the static form
    leaves every object of the store, [a] and [b] among them, as it was. *)
Theorem intersection_forms_agree {N : Type} `{Number N}
    (st : gmap RectObj.loc (Rect.t N)) (a b : RectObj.loc)
    (ra rb : Rect.t N) :
  st !! a = Some ra -> st !! b = Some rb ->
  exists (ok : bool) (st1 : gmap RectObj.loc (Rect.t N))
         (res : option RectObj.loc) (st2 : gmap RectObj.loc (Rect.t N)),
    RectObj.prototype_intersection a b st = Some (ok, st1) /\
    RectObj.intersection a b st = Some (res, st2) /\
    (ok = true <-> res <> None) /\
    (forall l, res = Some l ->
       l <> a /\ l <> b /\ exists i, st1 !! a = Some i /\ st2 !! l = Some i) /\
    st ⊆ st2 /\ st2 !! a = Some ra /\ st2 !! b = Some rb.
Proof.
  intros Ha Hb.
  destruct (prototype_intersection_spec st a b ra rb Ha Hb)
    as (ok & st1 & Hrun1 & Hpost1).
  destruct (intersection_spec st a b ra rb Ha Hb)
    as (res & st2 & Hrun2 & Hpost2).
  exists ok, st1, res, st2.
  split; [exact Hrun1 |]. split; [exact Hrun2 |].
  destruct (Rect.intersection ra rb) as [i|].
  - destruct Hpost1 as [-> ->]. destruct Hpost2 as (l & -> & Hl & ->).
    assert (l <> a) by congruence. assert (l <> b) by congruence.
    split; [split; done |].
    split.
    { intros l' [= <-]. split; [done |]. split; [done |].
      exists i. split; apply lookup_insert_eq. }
    split; [by apply insert_subseteq |].
    split; rewrite lookup_insert_ne; done.
  - destruct Hpost1 as [-> ->]. destruct Hpost2 as [-> ->].
    split; [split; done |]. split; [intros l [=] |]. done.
Qed.

Lemma intersection_forms_agree_witness :
  exists (ok : bool) (st1 : gmap RectObj.loc (Rect.t R))
         (res : option RectObj.loc) (st2 : gmap RectObj.loc (Rect.t R)),
    RectObj.prototype_intersection 1%positive 2%positive
      (<[1%positive := Rect.mk 0 0 10 10]> {[2%positive := Rect.mk 5 5 10 10]})
      = Some (ok, st1) /\
    RectObj.intersection 1%positive 2%positive
      (<[1%positive := Rect.mk 0 0 10 10]> {[2%positive := Rect.mk 5 5 10 10]})
      = Some (res, st2) /\
    (ok = true <-> res <> None) /\
    (forall l, res = Some l ->
       l <> 1%positive /\ l <> 2%positive /\
       exists i, st1 !! 1%positive = Some i /\ st2 !! l = Some i) /\
    <[1%positive := Rect.mk 0 0 10 10]> {[2%positive := Rect.mk 5 5 10 10]}
      ⊆ st2 /\
    st2 !! 1%positive = Some (Rect.mk 0 0 10 10) /\
    st2 !! 2%positive = Some (Rect.mk 5 5 10 10).
Proof.
  apply (intersection_forms_agree
    (<[1%positive := Rect.mk 0 0 10 10]> {[2%positive := Rect.mk 5 5 10 10]})
    1%positive 2%positive (Rect.mk 0 0 10 10) (Rect.mk 5 5 10 10));
    reflexivity.
Defined.

(** C10: [Rect.difference(a, b)] and [a.difference(b)] run alike; they
    leave every object of the store, [a] and [b] among them, with the fields
    it had; each reference in the array is to an instance allocated by the
    call, so none is [a] or [b], and no two are the same; the instances hold
    the rectangles of the difference: a clone of [a], or the bands. *)
Theorem difference_frame {N : Type} `{Number N}
    (st : gmap RectObj.loc (Rect.t N)) (a b : RectObj.loc)
    (ra rb : Rect.t N) :
  st !! a = Some ra -> st !! b = Some rb ->
  exists (ls : list RectObj.loc) (st' : gmap RectObj.loc (Rect.t N)),
    RectObj.difference a b st = Some (ls, st') /\
    RectObj.prototype_difference a b st = Some (ls, st') /\
    st ⊆ st' /\ st' !! a = Some ra /\ st' !! b = Some rb /\
    Forall (fun l => st !! l = None /\ l <> a /\ l <> b) ls /\
    NoDup ls /\
    Forall2 (fun l r => st' !! l = Some r) ls (Rect.difference ra rb).
Proof.
  intros Ha Hb.
  destruct (difference_spec st a b ra rb Ha Hb)
    as (ls & st' & Hrun & Hsub & Hfresh & Hnd & Hval).
  exists ls, st'. repeat split; try done.
  - eapply lookup_weaken; eauto.
  - eapply lookup_weaken; eauto.
  - eapply Forall_impl; [exact Hfresh |]. cbn. intros l Hl.
    repeat split; congruence.
Qed.

Lemma difference_frame_witness :
  exists (ls : list RectObj.loc) (st' : gmap RectObj.loc (Rect.t R)),
    RectObj.difference 1%positive 2%positive
      (<[1%positive := Rect.mk 0 0 10 10]> {[2%positive := Rect.mk 5 5 10 10]})
      = Some (ls, st') /\
    RectObj.prototype_difference 1%positive 2%positive
      (<[1%positive := Rect.mk 0 0 10 10]> {[2%positive := Rect.mk 5 5 10 10]})
      = Some (ls, st') /\
    <[1%positive := Rect.mk 0 0 10 10]> {[2%positive := Rect.mk 5 5 10 10]}
      ⊆ st' /\
    st' !! 1%positive = Some (Rect.mk 0 0 10 10) /\
    st' !! 2%positive = Some (Rect.mk 5 5 10 10) /\
    Forall (fun l =>
      (<[1%positive := Rect.mk 0 0 10 10]> {[2%positive := Rect.mk 5 5 10 10]}
         : gmap RectObj.loc (Rect.t R)) !! l = None /\
      l <> 1%positive /\ l <> 2%positive) ls /\
    NoDup ls /\
    Forall2 (fun l r => st' !! l = Some r) ls
      (Rect.difference (Rect.mk 0 0 10 10) (Rect.mk 5 5 10 10)).
Proof.
  apply (difference_frame
    (<[1%positive := Rect.mk 0 0 10 10]> {[2%positive := Rect.mk 5 5 10 10]})
    1%positive 2%positive (Rect.mk 0 0 10 10) (Rect.mk 5 5 10 10));
    reflexivity.
Defined.

(** ** Rect and Box *)

(** C6, as stated, fails on binary64: [Rect(0.1, 0.1, 0.2, 0.2)] comes back
    with the width and the height [0.20000000000000004], and
    [Rect(2^53, 0, 1, 1)] with the width [0]; [Rect.equals] answers false
    for both. *)
Lemma createFromBox_toBox_rounds :
  (let r := Rect.mk 0x1.999999999999ap-4 0x1.999999999999ap-4
                    0x1.999999999999ap-3 0x1.999999999999ap-3 in
   (0 <=? Rect.width r) = true /\ (0 <=? Rect.height r) = true /\
   Rect.createFromBox (Rect.toBox r)
     = Rect.mk 0x1.999999999999ap-4 0x1.999999999999ap-4
               0x1.999999999999bp-3 0x1.999999999999bp-3 /\
   Rect.createFromBox (Rect.toBox r) <> r /\
   Rect.equals (Some (1%positive, Rect.createFromBox (Rect.toBox r)))
               (Some (2%positive, r)) = false)%float /\
  (let r := Rect.mk 0x1p53 0 1 1 in
   (0 <=? Rect.width r) = true /\ (0 <=? Rect.height r) = true /\
   Rect.createFromBox (Rect.toBox r) = Rect.mk 0x1p53 0 0 1 /\
   Rect.createFromBox (Rect.toBox r) <> r /\
   Rect.equals (Some (1%positive, Rect.createFromBox (Rect.toBox r)))
               (Some (2%positive, r)) = false)%float.
Proof.
  split; intros r;
    (split; [vm_compute; reflexivity |]);
    (split; [vm_compute; reflexivity |]);
    (split; [vm_compute; reflexivity |]);
    (split; [| vm_compute; reflexivity]);
    intros E; apply (f_equal Rect.width) in E;
    apply (f_equal (fun x => PrimFloat.eqb x (Rect.width r))) in E;
    vm_compute in E; discriminate E.
Qed.

(** C6, amended.  Whatever the numbers are, [Rect.createFromBox(r.toBox())]
    has the left and the top of [r], the width [(left + width) - left] and
    the height [(top + height) - top].  On binary64, when the fields of [r]
    are finite and neither the two sums nor the two differences are rounded,
    the rectangle that comes back has the values of [r] and [Rect.equals]
    holds of the two; the signs of the width and of the height play no
    part. *)
Theorem createFromBox_toBox :
  (forall (N : Type) (HN : Number N) (r : Rect.t N),
     Rect.createFromBox (Rect.toBox r)
     = Rect.mk (Rect.left r) (Rect.top r)
               (Rect.left r + Rect.width r - Rect.left r)
               (Rect.top r + Rect.height r - Rect.top r))%num /\
  (forall (r : Rect.t float) (l l' : positive),
     Exact.round_trip r = true ->
     Exact.rect (Rect.createFromBox (Rect.toBox r)) = Exact.rect r /\
     Rect.equals (Some (l, Rect.createFromBox (Rect.toBox r))) (Some (l', r))
     = true).
Proof.
  split; [reflexivity |].
  intros r l l' He.
  destruct (round_trip_exact r He) as (Fl & Ft & Fw & Fh & Fw' & Fh' & Hv).
  split; [exact Hv |].
  unfold Rect.equals. destruct (same_reference _ _); [reflexivity |].
  apply (f_equal Rect.width) in Hv as Hw. apply (f_equal Rect.height) in Hv as Hh.
  unfold Exact.rect in Hw, Hh. cbn [Rect.width Rect.height] in Hw, Hh.
  unfold Rect.createFromBox, Rect.toBox in *.
  cbn [Box.left Box.top Box.right Box.bottom
       Rect.left Rect.top Rect.width Rect.height] in *. float_ops.
  rewrite (eqb_real _ _ Fl Fl), (eqb_real _ _ Ft Ft),
    (eqb_real _ _ Fw' Fw), (eqb_real _ _ Fh' Fh), Hw, Hh.
  rewrite !(proj2 (Reqb_true _ _) eq_refl). reflexivity.
Qed.

Lemma createFromBox_toBox_witness :
  Exact.rect (Rect.createFromBox (Rect.toBox (Rect.mk 3 4 10 20)%float))
    = Exact.rect (Rect.mk 3 4 10 20)%float /\
  Rect.equals
    (Some (1%positive, Rect.createFromBox (Rect.toBox (Rect.mk 3 4 10 20)%float)))
    (Some (2%positive, (Rect.mk 3 4 10 20)%float)) = true.
Proof.
  apply (proj2 createFromBox_toBox (Rect.mk 3 4 10 20)%float 1%positive 2%positive).
  vm_compute. reflexivity.
Defined.




(** ** Size.prototype.scaleToFit *)

(** C7: [s.scaleToFit(target)] multiplies the width and the height of [s]
    by one factor: [target.width / s.width] when the aspect ratio of [s]
    exceeds that of [target], [target.height / s.height] otherwise; this
    holds whatever the numbers are.  In exact arithmetic, for sizes whose
    widths and heights are positive, the aspect ratio of [s] is kept.
    [Size(4, 3).scaleToFit(Size(8, 3))] is [Size(4, 3)], in exact arithmetic
    and on binary64. *)
Theorem scaleToFit_factor :
  (forall (N : Type) (HN : Number N) (this target : Size.t N),
     let k := if (Size.aspectRatio this >? Size.aspectRatio target)%num
              then (Size.width target / Size.width this)%num
              else (Size.height target / Size.height this)%num in
     Size.scaleToFit this target
     = Size.mk (Size.width this * k)%num (Size.height this * k)%num) /\
  (forall this target : Size.t R,
     0 < Size.width this -> 0 < Size.height this ->
     0 < Size.width target -> 0 < Size.height target ->
     (Size.aspectRatio this > Size.aspectRatio target ->
        Size.scaleToFit this target =
          Size.mk (Size.width this * (Size.width target / Size.width this))
                  (Size.height this * (Size.width target / Size.width this))) /\
     (~ Size.aspectRatio this > Size.aspectRatio target ->
        Size.scaleToFit this target =
          Size.mk (Size.width this * (Size.height target / Size.height this))
                  (Size.height this * (Size.height target / Size.height this))) /\
     Size.aspectRatio (Size.scaleToFit this target) = Size.aspectRatio this) /\
  Size.scaleToFit (Size.mk 4 3) (Size.mk 8 3) = Size.mk 4 3 /\
  (Size.scaleToFit (Size.mk 4 3) (Size.mk 8 3) = Size.mk 4 3)%float.
Proof.
  split; [reflexivity |]. split; [| split].
  - intros this target Hw Hh Htw Hth.
    split; [apply scaleToFit_wide |]. split; [apply scaleToFit_tall |].
    destruct (Rlt_dec (Size.aspectRatio target) (Size.aspectRatio this)) as [Hr|Hr].
    + rewrite (scaleToFit_wide this target Hr).
      unfold Size.aspectRatio. cbn. real_ops. field. lra.
    + rewrite (scaleToFit_tall this target Hr).
      unfold Size.aspectRatio. cbn. real_ops. field. lra.
  - rewrite scaleToFit_tall.
    + cbn. f_equal; field.
    + unfold Size.aspectRatio. cbn. real_ops. lra.
  - vm_compute. reflexivity.
Qed.

Lemma scaleToFit_factor_witness :
  Size.scaleToFit (Size.mk 6 2) (Size.mk 3 3)
  = Size.mk (6 * (3 / 6)) (2 * (3 / 6)).
Proof.
  refine (proj1 (proj1 (proj2 scaleToFit_factor)
                   (Size.mk 6 2) (Size.mk 3 3) _ _ _ _) _);
    unfold Size.aspectRatio; cbn; lra.
Defined.

(** ** Coordinate.prototype.normalize *)




End Claims.

(** * Further laws *)

(** ** Containment and intersection of rectangles, in exact arithmetic *)

Section RectContainment.
Local Open Scope R_scope.
Implicit Types a b c i : Rect.t R.
Implicit Types p : Coordinate.t R.

Lemma or_zero_real (v : R) : Coordinate.or_zero (Some v) = v.
Proof.
  unfold Coordinate.or_zero. real_ops.
  destruct (Reqb v 0) eqn:Hv; [apply Reqb_true in Hv; subst |]; reflexivity.
Qed.

Lemma new_real (u v : R) :
  Coordinate.new (Some u) (Some v) = Coordinate.mk u v.
Proof. unfold Coordinate.new. rewrite !or_zero_real. reflexivity. Qed.

Lemma contains_rect a b :
  Rect.contains a (Rect.OfRect b) = true <->
    Rect.left a <= Rect.left b /\
    Rect.left b + Rect.width b <= Rect.left a + Rect.width a /\
    Rect.top a <= Rect.top b /\
    Rect.top b + Rect.height b <= Rect.top a + Rect.height a.
Proof.
  unfold Rect.contains. real_ops. rewrite !andb_true_iff, !Rleb_true. tauto.
Qed.

Lemma contains_point a p :
  Rect.contains a (Rect.OfCoordinate p) = true <->
    Rect.left a <= Coordinate.x p <= Rect.left a + Rect.width a /\
    Rect.top a <= Coordinate.y p <= Rect.top a + Rect.height a.
Proof.
  unfold Rect.contains. real_ops. rewrite !andb_true_iff, !Rleb_true. tauto.
Qed.


(** Nothing of [a] is left exactly when [b] contains [a] and [a] has a
    width and a height. *)
Lemma no_band_iff a b :
  Rect.difference a b = [] <->
    Rect.contains b (Rect.OfRect a) = true /\
    0 < Rect.width a /\ 0 < Rect.height a.
Proof.
  rewrite contains_rect. split.
  - intros Hd.
    destruct (Rect.unaffected (Rect.intersection a b)) eqn:Hu.
    { rewrite (difference_clone a b Hu) in Hd. discriminate. }
    apply unaffected_false in Hu as (i & Hi & Hw & Hh).
    rewrite (difference_bands a b i Hi Hw Hh) in Hd.
    destruct (intersection_bounds a b i Hi) as (Hl & Ht & Hr & Hb & Hw0 & Hh0).
    unfold emitted in Hd.
    destruct (Rltb (Rect.top a) (Rect.top b)) eqn:T; [discriminate |].
    destruct (Rltb (Rect.top b + Rect.height b) (Rect.top a + Rect.height a))
      eqn:B; [discriminate |].
    destruct (Rltb (Rect.left a) (Rect.left b)) eqn:L; [discriminate |].
    destruct (Rltb (Rect.left b + Rect.width b) (Rect.left a + Rect.width a))
      eqn:Rt; [discriminate |].
    apply Rltb_false in T, B, L, Rt.
    unfold Rmax, Rmin in *. repeat destruct Rle_dec; repeat split; lra.
  - intros ((Hl & Hr & Ht & Hb) & Hw & Hh).
    assert (Hi : Rect.intersection a b = Some a).
    { apply intersection_Some. unfold Rmax, Rmin.
      repeat destruct Rle_dec; try lra.
      all: split; [lra |]; split; [lra |]; destruct a; cbn in *; f_equal; lra. }
    rewrite (difference_bands a b a Hi) by lra.
    unfold emitted.
    rewrite (proj2 (Rltb_false (Rect.top a) (Rect.top b))) by lra.
    rewrite (proj2 (Rltb_false _ _) Hb).
    rewrite (proj2 (Rltb_false (Rect.left a) (Rect.left b))) by lra.
    rewrite (proj2 (Rltb_false _ _) Hr).
    reflexivity.
Qed.

(** The intersection is contained in both operands and contains every
    rectangle that both contain. *)
Lemma intersection_is_greatest a b i :
  Rect.intersection a b = Some i ->
  Rect.contains a (Rect.OfRect i) = true /\
  Rect.contains b (Rect.OfRect i) = true /\
  forall c, Rect.contains a (Rect.OfRect c) = true ->
            Rect.contains b (Rect.OfRect c) = true ->
            Rect.contains i (Rect.OfRect c) = true.
Proof.
  intros Hi.
  destruct (band_rows a b i Hi) as (? & ? & ? & ?).
  destruct (band_columns a b i Hi) as (? & ? & ? & ?).
  destruct (intersection_bounds a b i Hi) as (Hl & Ht & Hr & Hb & _ & _).
  split; [apply contains_rect; lra |]. split; [apply contains_rect; lra |].
  intros c Ha Hb'. apply contains_rect in Ha, Hb'. apply contains_rect.
  rewrite Hr, Hb, Hl, Ht. unfold Rmax, Rmin.
  repeat destruct Rle_dec; lra.
Qed.

(** The intersection is the set of the coordinates that both operands
    contain. *)
Lemma intersection_is_common_points a b :
  match Rect.intersection a b with
  | Some i =>
      forall p, Rect.contains i (Rect.OfCoordinate p) = true <->
                Rect.contains a (Rect.OfCoordinate p) = true /\
                Rect.contains b (Rect.OfCoordinate p) = true
  | None =>
      forall p, ~ (Rect.contains a (Rect.OfCoordinate p) = true /\
                   Rect.contains b (Rect.OfCoordinate p) = true)
  end.
Proof.
  destruct (Rect.intersection a b) as [i|] eqn:Hi.
  - intros p. rewrite !contains_point.
    destruct (intersection_bounds a b i Hi) as (Hl & Ht & Hr & Hb & _ & _).
    rewrite Hr, Hb, Hl, Ht. unfold Rmax, Rmin.
    repeat destruct Rle_dec; split; intros; lra.
  - intros p. rewrite !contains_point.
    apply intersection_None in Hi. unfold Rmax, Rmin in Hi.
    repeat destruct Rle_dec; lra.
Qed.

(** X6: [Rect.intersection] does not depend on the order of its arguments. *)
Theorem intersection_comm a b :
  Rect.intersection a b = Rect.intersection b a.
Proof.
  unfold Rect.intersection. real_ops.
  rewrite (Rmax_comm (Rect.left a)), (Rmin_comm (Rect.left a + Rect.width a)).
  rewrite (Rmax_comm (Rect.top a)), (Rmin_comm (Rect.top a + Rect.height a)).
  reflexivity.
Qed.

(** A rectangle meets itself exactly when neither its width nor its height
    is negative, and the intersection is then the rectangle. *)
Lemma meets_itself a :
  (Rect.intersects a a = true <-> 0 <= Rect.width a /\ 0 <= Rect.height a) /\
  (0 <= Rect.width a /\ 0 <= Rect.height a ->
     Rect.intersection a a = Some a) /\
  (~ (0 <= Rect.width a /\ 0 <= Rect.height a) ->
     Rect.intersection a a = None).
Proof.
  split; [| split].
  - rewrite intersects_true. split; intros; lra.
  - intros [Hw Hh]. apply intersection_Some.
    rewrite !Rmax_le_Rmin. split; [lra |]. split; [lra |].
    unfold Rmax, Rmin. repeat destruct Rle_dec; try lra.
    destruct a; cbn in *; f_equal; lra.
  - intros Hneg. apply intersection_None. unfold Rmax, Rmin.
    repeat destruct Rle_dec; lra.
Qed.

(** [a.boundingRect(b)] is the least rectangle that contains both. *)
Lemma boundingRect_is_least a b :
  Rect.contains (Rect.prototype_boundingRect a b) (Rect.OfRect a) = true /\
  Rect.contains (Rect.prototype_boundingRect a b) (Rect.OfRect b) = true /\
  (forall c, Rect.contains c (Rect.OfRect a) = true ->
             Rect.contains c (Rect.OfRect b) = true ->
             Rect.contains c (Rect.OfRect (Rect.prototype_boundingRect a b)) = true).
Proof.
  repeat split.
  - apply contains_rect. unfold Rect.prototype_boundingRect. cbn. real_ops.
    unfold Rmax, Rmin. repeat destruct Rle_dec; lra.
  - apply contains_rect. unfold Rect.prototype_boundingRect. cbn. real_ops.
    unfold Rmax, Rmin. repeat destruct Rle_dec; lra.
  - intros c Ha Hb. apply contains_rect in Ha, Hb. apply contains_rect.
    unfold Rect.prototype_boundingRect. cbn. real_ops.
    unfold Rmax, Rmin. repeat destruct Rle_dec; lra.
Qed.

End RectContainment.

(** ** Containment and intersection of rectangles, on runs that do not round *)

Section ExactContainment.
Import Binary64.
Implicit Types a b c i : Rect.t float.
Implicit Types p : Coordinate.t float.
Local Open Scope R_scope.

Lemma contains_rect_exact a c :
  Exact.edges a = true -> Exact.edges c = true ->
  Rect.contains a (Rect.OfRect c)
  = Rect.contains (Exact.rect a) (Rect.OfRect (Exact.rect c)).
Proof.
  intros Ha Hc.
  apply edges_exact in Ha as (Fal & Fat & Faw & Fah & Far & Fab & Rar & Rab).
  apply edges_exact in Hc as (Fcl & Fct & Fcw & Fch & Fcr & Fcb & Rcr & Rcb).
  unfold Rect.contains, Exact.rect.
  cbn [Rect.left Rect.top Rect.width Rect.height]. float_ops. real_ops.
  rewrite (leb_real _ _ Fal Fcl), (leb_real _ _ Fcr Far),
    (leb_real _ _ Fat Fct), (leb_real _ _ Fcb Fab).
  rewrite Rar, Rab, Rcr, Rcb. reflexivity.
Qed.

Lemma contains_point_exact a p :
  Exact.edges a = true -> Exact.point p = true ->
  Rect.contains a (Rect.OfCoordinate p)
  = Rect.contains (Exact.rect a) (Rect.OfCoordinate (Exact.coordinate p)).
Proof.
  intros Ha Hp.
  apply edges_exact in Ha as (Fal & Fat & Faw & Fah & Far & Fab & Rar & Rab).
  unfold Exact.point in Hp. apply andb_true_iff in Hp as [Fx Fy].
  unfold Rect.contains, Exact.rect, Exact.coordinate.
  cbn [Rect.left Rect.top Rect.width Rect.height Coordinate.x Coordinate.y].
  float_ops. real_ops.
  rewrite (leb_real _ _ Fal Fx), (leb_real _ _ Fx Far),
    (leb_real _ _ Fat Fy), (leb_real _ _ Fy Fab).
  rewrite Rar, Rab. reflexivity.
Qed.

Lemma boundingRect_exact a b :
  Exact.boundingRect a b = true ->
  Exact.rect (Rect.prototype_boundingRect a b)
  = Rect.prototype_boundingRect (Exact.rect a) (Exact.rect b).
Proof.
  unfold Exact.boundingRect. rewrite !andb_true_iff. intros [[Ha Hb] [Hw Hh]].
  apply edges_exact in Ha as (Fal & Fat & Faw & Fah & Far & Fab & Rar & Rab).
  apply edges_exact in Hb as (Fbl & Fbt & Fbw & Fbh & Fbr & Fbb & Rbr & Rbb).
  unfold Rect.prototype_boundingRect, Exact.rect in *.
  cbn [Rect.left Rect.top Rect.width Rect.height] in *. float_ops. real_ops.
  destruct (max_real _ _ Far Fbr) as [_ Rr].
  destruct (max_real _ _ Fab Fbb) as [_ Rb].
  destruct (min_real _ _ Fal Fbl) as [_ Rl].
  destruct (min_real _ _ Fat Fbt) as [_ Rt].
  apply exact_sub_real in Hw as (_ & _ & _ & Rw).
  apply exact_sub_real in Hh as (_ & _ & _ & Rh).
  rewrite Rw, Rh, Rr, Rb, Rl, Rt, Rar, Rab, Rbr, Rbb. reflexivity.
Qed.

(** The intersection of an exact run and the intersection of the values. *)
Lemma intersection_value a b i :
  Exact.intersection a b = true -> Rect.intersection a b = Some i ->
  Rect.intersection (Exact.rect a) (Exact.rect b) = Some (Exact.rect i).
Proof.
  intros He Hi. destruct (intersection_exact a b He) as [Ho _].
  rewrite Hi in Ho. symmetry. exact Ho.
Qed.


Lemma nonneg_real_iff (x : float) :
  finite x = true -> (0 <=? x)%float = true <-> 0 <= real x.
Proof.
  intros Fx. change (PrimFloat.leb PrimFloat.zero x = true <-> 0 <= real x).
  rewrite (leb_real _ _ finite_zero Fx), real_zero. apply Rleb_true.
Qed.



(** X2: On binary64, in a run that does not round, [Rect.difference(a, b)]
    is the empty array exactly when [b] contains [a] and [a] has a positive
    width and a positive height: nothing of [a] is left. *)
Theorem difference_empty_iff a b :
  Exact.difference a b = true ->
  Rect.difference a b = [] <->
    Rect.contains b (Rect.OfRect a) = true /\
    (0 <? Rect.width a)%float = true /\ (0 <? Rect.height a)%float = true.
Proof.
  intros He. pose proof (difference_exact a b He) as Hd.
  unfold Exact.difference in He. apply andb_true_iff in He as [He _].
  unfold Exact.intersection in He. apply andb_true_iff in He as [He _].
  apply andb_true_iff in He as [Ha Hb].
  rewrite (contains_rect_exact b a Hb Ha).
  apply edges_exact in Ha as (_ & _ & Faw & Fah & _).
  rewrite (pos_real _ Faw), (pos_real _ Fah).
  rewrite <- (no_band_iff (Exact.rect a) (Exact.rect b)), <- Hd.
  destruct (Rect.difference a b); cbn [map]; split; intros; congruence.
Qed.

Lemma difference_empty_iff_witness :
  Rect.difference (Rect.mk 2 2 3 3)%float (Rect.mk 0 0 10 10)%float = [] <->
    Rect.contains (Rect.mk 0 0 10 10)%float (Rect.OfRect (Rect.mk 2 2 3 3)%float)
      = true /\
    (0 <? Rect.width (Rect.mk 2 2 3 3))%float = true /\
    (0 <? Rect.height (Rect.mk 2 2 3 3))%float = true.
Proof.
  apply (difference_empty_iff (Rect.mk 2 2 3 3)%float (Rect.mk 0 0 10 10)%float).
  vm_compute. reflexivity.
Defined.

(** X4: On binary64, when [Rect.intersection(a, b)] runs without rounding
    and the edges of the rectangle it returns, and of [c], are exact, that
    rectangle is contained in [a] and in [b], and contains every rectangle
    [c] that both contain. *)
Theorem intersection_greatest a b i :
  Exact.intersection a b = true ->
  Rect.intersection a b = Some i ->
  Exact.edges i = true ->
  Rect.contains a (Rect.OfRect i) = true /\
  Rect.contains b (Rect.OfRect i) = true /\
  forall c, Exact.edges c = true ->
            Rect.contains a (Rect.OfRect c) = true ->
            Rect.contains b (Rect.OfRect c) = true ->
            Rect.contains i (Rect.OfRect c) = true.
Proof.
  intros He Hi Hei.
  pose proof (intersection_value a b i He Hi) as Hi'.
  unfold Exact.intersection in He. apply andb_true_iff in He as [He _].
  apply andb_true_iff in He as [Ha Hb].
  destruct (intersection_is_greatest _ _ _ Hi') as (Hia & Hib & Hc).
  rewrite (contains_rect_exact a i Ha Hei), (contains_rect_exact b i Hb Hei).
  split; [exact Hia |]. split; [exact Hib |].
  intros c Hec.
  rewrite (contains_rect_exact a c Ha Hec), (contains_rect_exact b c Hb Hec),
    (contains_rect_exact i c Hei Hec).
  apply Hc.
Qed.

Lemma intersection_greatest_witness :
  Rect.contains (Rect.mk 0 0 10 10)%float (Rect.OfRect (Rect.mk 5 5 5 5)%float) = true /\
  Rect.contains (Rect.mk 5 5 10 10)%float (Rect.OfRect (Rect.mk 5 5 5 5)%float) = true /\
  forall c, Exact.edges c = true ->
            Rect.contains (Rect.mk 0 0 10 10)%float (Rect.OfRect c) = true ->
            Rect.contains (Rect.mk 5 5 10 10)%float (Rect.OfRect c) = true ->
            Rect.contains (Rect.mk 5 5 5 5)%float (Rect.OfRect c) = true.
Proof.
  apply (intersection_greatest (Rect.mk 0 0 10 10)%float
           (Rect.mk 5 5 10 10)%float (Rect.mk 5 5 5 5)%float);
    vm_compute; reflexivity.
Defined.

(** X5: On binary64, when [Rect.intersection(a, b)] runs without rounding
    and the edges of the rectangle it returns are exact, that rectangle
    contains exactly the coordinates of finite fields that [a] and [b] both
    contain; when it returns [null], no such coordinate is contained in
    both.  This holds for extents of either sign. *)
Theorem intersection_common_points a b :
  Exact.intersection a b = true ->
  match Rect.intersection a b with
  | Some i =>
      Exact.edges i = true ->
      forall p, Exact.point p = true ->
        (Rect.contains i (Rect.OfCoordinate p) = true <->
         Rect.contains a (Rect.OfCoordinate p) = true /\
         Rect.contains b (Rect.OfCoordinate p) = true)
  | None =>
      forall p, Exact.point p = true ->
        ~ (Rect.contains a (Rect.OfCoordinate p) = true /\
           Rect.contains b (Rect.OfCoordinate p) = true)
  end.
Proof.
  intros He. destruct (intersection_exact a b He) as [Ho _].
  pose proof (intersection_is_common_points (Exact.rect a) (Exact.rect b)) as Hc.
  unfold Exact.intersection in He. apply andb_true_iff in He as [He _].
  apply andb_true_iff in He as [Ha Hb].
  destruct (Rect.intersection a b) as [i|]; cbn [option_map] in Ho;
    rewrite <- Ho in Hc.
  - intros Hei p Hp.
    rewrite (contains_point_exact i p Hei Hp), (contains_point_exact a p Ha Hp),
      (contains_point_exact b p Hb Hp).
    apply Hc.
  - intros p Hp.
    rewrite (contains_point_exact a p Ha Hp), (contains_point_exact b p Hb Hp).
    apply Hc.
Qed.

Lemma intersection_common_points_witness :
  match Rect.intersection (Rect.mk 0 0 10 10)%float (Rect.mk 5 5 10 10)%float with
  | Some i =>
      Exact.edges i = true ->
      forall p, Exact.point p = true ->
        (Rect.contains i (Rect.OfCoordinate p) = true <->
         Rect.contains (Rect.mk 0 0 10 10)%float (Rect.OfCoordinate p) = true /\
         Rect.contains (Rect.mk 5 5 10 10)%float (Rect.OfCoordinate p) = true)
  | None =>
      forall p, Exact.point p = true ->
        ~ (Rect.contains (Rect.mk 0 0 10 10)%float (Rect.OfCoordinate p) = true /\
           Rect.contains (Rect.mk 5 5 10 10)%float (Rect.OfCoordinate p) = true)
  end.
Proof.
  apply (intersection_common_points (Rect.mk 0 0 10 10)%float
           (Rect.mk 5 5 10 10)%float).
  vm_compute. reflexivity.
Defined.

(** X7: On binary64, when [Rect.intersection(a, a)] runs without rounding, a
    rectangle meets itself exactly when neither its width nor its height is
    negative: then [Rect.intersection(a, a)] has the values of [a]; a
    rectangle of negative extent has no intersection with itself. *)
Theorem self_intersection a :
  Exact.intersection a a = true ->
  let nonneg := (0 <=? Rect.width a)%float && (0 <=? Rect.height a)%float in
  Rect.intersects a a = nonneg /\
  (nonneg = true ->
     exists i, Rect.intersection a a = Some i /\ Exact.rect i = Exact.rect a) /\
  (nonneg = false -> Rect.intersection a a = None).
Proof.
  intros He nonneg. destruct (intersection_exact a a He) as [Ho _].
  destruct (meets_itself (Exact.rect a)) as (Hm & Hs & Hn).
  unfold Exact.intersection in He. apply andb_true_iff in He as [He _].
  apply andb_true_iff in He as [Ha _].
  assert (Hnn : nonneg = true <->
                0 <= Rect.width (Exact.rect a) /\ 0 <= Rect.height (Exact.rect a)).
  { subst nonneg. apply edges_exact in Ha as (_ & _ & Faw & Fah & _).
    rewrite andb_true_iff, (nonneg_real_iff _ Faw), (nonneg_real_iff _ Fah).
    reflexivity. }
  split; [| split].
  - rewrite (intersects_exact a a Ha Ha). apply eq_iff_eq_true.
    rewrite Hm, Hnn. reflexivity.
  - intros H. apply Hnn, Hs in H. rewrite H in Ho.
    destruct (Rect.intersection a a) as [i|]; [| discriminate Ho].
    exists i. split; [reflexivity |]. cbn [option_map] in Ho. congruence.
  - intros H. assert (Hneg : ~ (0 <= Rect.width (Exact.rect a)
                                /\ 0 <= Rect.height (Exact.rect a))).
    { intros Hp. apply Hnn in Hp. congruence. }
    apply Hn in Hneg. rewrite Hneg in Ho.
    destruct (Rect.intersection a a); [discriminate Ho | reflexivity].
Qed.

Lemma self_intersection_witness :
  exists i, Rect.intersection (Rect.mk 1 2 3 4)%float (Rect.mk 1 2 3 4)%float = Some i /\
            Exact.rect i = Exact.rect (Rect.mk 1 2 3 4)%float.
Proof.
  apply (proj1 (proj2 (self_intersection (Rect.mk 1 2 3 4)%float
                         ltac:(vm_compute; reflexivity)))).
  vm_compute. reflexivity.
Defined.

(** X10: On binary64, when [a.boundingRect(b)] runs without rounding and the
    edges of the rectangle it leaves in [a], and of [c], are exact, that
    rectangle is the least one that contains both: it contains [a] and [b],
    and every rectangle [c] that contains both contains it.  Whatever the
    numbers are, the static [Rect.boundingRect(a, b)] returns that
    rectangle, and [null] when an argument is [null]. *)
Theorem boundingRect_least :
  (forall a b,
     Exact.boundingRect a b = true ->
     Exact.edges (Rect.prototype_boundingRect a b) = true ->
     Rect.contains (Rect.prototype_boundingRect a b) (Rect.OfRect a) = true /\
     Rect.contains (Rect.prototype_boundingRect a b) (Rect.OfRect b) = true /\
     (forall c, Exact.edges c = true ->
        Rect.contains c (Rect.OfRect a) = true ->
        Rect.contains c (Rect.OfRect b) = true ->
        Rect.contains c (Rect.OfRect (Rect.prototype_boundingRect a b)) = true)) /\
  (forall (N : Type) (HN : Number N) (a b : Rect.t N),
     Rect.boundingRect (Some a) (Some b) = Some (Rect.prototype_boundingRect a b) /\
     Rect.boundingRect None (Some b) = None /\
     Rect.boundingRect (Some a) None = None).
Proof.
  split.
  - intros a b He Her.
    pose proof (boundingRect_exact a b He) as Hv.
    unfold Exact.boundingRect in He. apply andb_true_iff in He as [He _].
    apply andb_true_iff in He as [Ha Hb].
    destruct (boundingRect_is_least (Exact.rect a) (Exact.rect b))
      as (Hca & Hcb & Hleast).
    rewrite <- Hv in Hca, Hcb, Hleast.
    rewrite (contains_rect_exact _ a Her Ha), (contains_rect_exact _ b Her Hb).
    split; [exact Hca |]. split; [exact Hcb |].
    intros c Hec.
    rewrite (contains_rect_exact c a Hec Ha), (contains_rect_exact c b Hec Hb),
      (contains_rect_exact c _ Hec Her).
    apply Hleast.
  - intros N HN a b. unfold Rect.boundingRect.
    replace (Rect.clone a) with a by (destruct a; reflexivity).
    repeat split.
Qed.

Lemma boundingRect_least_witness :
  Rect.contains (Rect.mk 0 0 20 20)%float
    (Rect.OfRect (Rect.prototype_boundingRect (Rect.mk 0 0 10 10)%float
                                              (Rect.mk 5 5 10 10)%float)) = true.
Proof.
  apply (proj2 (proj2 (proj1 boundingRect_least (Rect.mk 0 0 10 10)%float
                         (Rect.mk 5 5 10 10)%float
                         ltac:(vm_compute; reflexivity)
                         ltac:(vm_compute; reflexivity)))
           (Rect.mk 0 0 20 20)%float);
    vm_compute; reflexivity.
Defined.

End ExactContainment.

(** ** What holds whatever the numbers are *)

Section AnyNumber.
Context {N : Type} `{Number N}.

(** X3: [Rect.difference] returns at most four rectangles, whatever the numbers
    are, NaN included. *)
Theorem difference_length (a b : Rect.t N) :
  (length (Rect.difference a b) <= 4)%nat.
Proof.
  unfold Rect.difference.
  destruct (Rect.unaffected _); [cbn; lia |].
  repeat match goal with
    | |- context [if ?c then _ else _] => destruct c
    end; cbn; lia.
Qed.

(** X8: [Rect.intersects] and [Box.intersects] do not depend on the order of
    their arguments, and the method [a.intersects(b)] is the static one. *)
Theorem intersects_symmetric (a b : Rect.t N) (c d : Box.t N) :
  Rect.intersects a b = Rect.intersects b a /\
  Rect.prototype_intersects a b = Rect.intersects b a /\
  Box.intersects c d = Box.intersects d c.
Proof.
  unfold Rect.prototype_intersects, Rect.intersects, Box.intersects.
  repeat split;
    repeat match goal with
      | |- context [num_leb ?u ?v] => destruct (num_leb u v)
      end; reflexivity.
Qed.

(** X9: A rectangle and its box answer alike: [Rect.contains] and
    [Rect.intersects] are [Box.contains] and [Box.intersects] of the boxes
    made by [toBox]. *)
Theorem toBox_preserves_tests (a b : Rect.t N) (p : Coordinate.t N) :
  Rect.intersects a b = Box.intersects (Rect.toBox a) (Rect.toBox b) /\
  Rect.contains a (Rect.OfRect b)
    = Box.contains (Some (Rect.toBox a)) (Some (Box.OfBox (Rect.toBox b))) /\
  Rect.contains a (Rect.OfCoordinate p)
    = Box.contains (Some (Rect.toBox a)) (Some (Box.OfCoordinate p)).
Proof.
  unfold Rect.intersects, Box.intersects, Rect.contains, Box.contains,
    Rect.toBox. cbn.
  repeat split;
    repeat match goal with
      | |- context [num_leb ?u ?v] => destruct (num_leb u v)
      end; reflexivity.
Qed.

(** X16: Whatever the numbers are, [Rect.createAtOffset(offset, size)] and
    [Rect.createAroundCenter(center, size)] have the size [size], and
    through [toBox] the first is the box that [Box.createAtOffset] makes. *)
Theorem factories_agree (center offset : Coordinate.t N) (size : Size.t N) :
  Rect.getSize (Rect.createAroundCenter center size) = size /\
  Rect.getSize (Rect.createAtOffset offset size) = size /\
  Rect.toBox (Rect.createAtOffset offset size) = Box.createAtOffset offset size.
Proof. destruct size. repeat split. Qed.

End AnyNumber.

(** ** Bounding rectangles, on objects *)

Section RunBoundingRect.
Context {N : Type} `{Number N}.
Implicit Types st : gmap RectObj.loc (Rect.t N).

Lemma prototype_boundingRect_spec st (this rect : RectObj.loc) (s r : Rect.t N) :
  st !! this = Some s -> st !! rect = Some r ->
  wp (RectObj.prototype_boundingRect this rect) st (fun _ st' =>
    st' = <[this := Rect.prototype_boundingRect s r]> st).
Proof.
  intros Hs Hr. unfold RectObj.prototype_boundingRect.
  wp_reads eassumption.
  apply wp_bind. eapply wp_set; [eassumption |].
  destruct (decide (this = rect)) as [<- | Hne].
  - assert (r = s) as -> by congruence.
    wp_reads ltac:(apply lookup_insert_eq).
    apply wp_bind. eapply wp_set; [apply lookup_insert_eq |].
    wp_reads ltac:(apply lookup_insert_eq).
    apply wp_bind. eapply wp_set; [apply lookup_insert_eq |].
    wp_reads ltac:(apply lookup_insert_eq).
    eapply wp_set; [apply lookup_insert_eq |].
    rewrite !insert_insert_eq. reflexivity.
  - wp_reads ltac:(first [apply lookup_insert_eq
                         | rewrite lookup_insert_ne by done; eassumption]).
    apply wp_bind. eapply wp_set; [apply lookup_insert_eq |].
    wp_reads ltac:(apply lookup_insert_eq).
    apply wp_bind. eapply wp_set; [apply lookup_insert_eq |].
    wp_reads ltac:(apply lookup_insert_eq).
    eapply wp_set; [apply lookup_insert_eq |].
    rewrite !insert_insert_eq. reflexivity.
Qed.

(** X11: On objects, whatever the numbers are: [a.boundingRect(b)] overwrites
    [a] with the bounding rectangle of the two values and touches nothing
    else, also when [b] is [a] itself; the static [Rect.boundingRect(a, b)]
    leaves [a] and [b] as they were and returns a new instance, and with a
    [null] argument it returns [null] and allocates nothing. *)
Theorem boundingRect_frame :
  (forall st (this rect : RectObj.loc) (s r : Rect.t N),
     st !! this = Some s -> st !! rect = Some r ->
     RectObj.prototype_boundingRect this rect st
     = Some (tt, <[this := Rect.prototype_boundingRect s r]> st)) /\
  (forall st (a b : RectObj.loc) (ra rb : Rect.t N),
     st !! a = Some ra -> st !! b = Some rb ->
     exists l,
       st !! l = None /\ l <> a /\ l <> b /\
       RectObj.boundingRect (Some a) (Some b) st
       = Some (Some l,
               <[l := Rect.prototype_boundingRect (Rect.clone ra) rb]> st)) /\
  (forall st (a b : option RectObj.loc),
     a = None \/ b = None ->
     RectObj.boundingRect a b st = Some (None, st)).
Proof.
  split; [| split].
  - intros st this rect s r Hs Hr. apply wp_run.
    eapply wp_mono; [exact (prototype_boundingRect_spec st this rect s r Hs Hr) |].
    intros [] st' ->. done.
  - intros st a b ra rb Ha Hb.
    destruct (clone_spec st a ra Ha) as (l & st1 & Hrun1 & Hl & ->).
    assert (l <> a) by congruence. assert (l <> b) by congruence.
    destruct (prototype_boundingRect_spec (<[l := Rect.clone ra]> st) l b
                (Rect.clone ra) rb) as ([] & st2 & Hrun2 & ->).
    { apply lookup_insert_eq. }
    { rewrite lookup_insert_ne; done. }
    exists l. repeat split; try done.
    unfold RectObj.boundingRect, mbind, RectObj.M_bind.
    rewrite Hrun1, Hrun2, insert_insert_eq. reflexivity.
  - intros st a b [-> | ->]; [reflexivity |]. destruct a; reflexivity.
Qed.

End RunBoundingRect.

Lemma boundingRect_frame_witness :
  (RectObj.prototype_boundingRect 1%positive 2%positive
     (<[1%positive := Rect.mk 0 0 10 10]> {[2%positive := Rect.mk 5 5 10 10]})
   = Some (tt, <[1%positive := Rect.mk 0 0 15 15]>
                 (<[1%positive := Rect.mk 0 0 10 10]>
                    {[2%positive := Rect.mk 5 5 10 10]})))%float.
Proof.
  exact (proj1 (@boundingRect_frame PrimFloat.float Number_float)
    (<[1%positive := Rect.mk 0 0 10 10]> {[2%positive := Rect.mk 5 5 10 10]})%float
    1%positive 2%positive (Rect.mk 0 0 10 10)%float (Rect.mk 5 5 10 10)%float
    eq_refl eq_refl).
Defined.

(** ** Boxes on binary64 *)

Section Binary64Boxes.
Implicit Types (u v w box : Box.t float) (p q : Coordinate.t float).

(** The definitions that only compare, unfolded. *)
Ltac box_tests :=
  unfold Box.contains, Box.expandToInclude, Box.toJSON, Coordinate.toJSON,
    Binary64.numbers in *;
  cbn [forallb Box.top Box.right Box.bottom Box.left
       Coordinate.x Coordinate.y] in *.

Lemma contains_itself u :
  Box.contains (Some u) (Some (Box.OfBox u)) = true <->
  Binary64.numbers (Box.toJSON u) = true.
Proof. split; box_tests; intros; rank_all. Qed.

Lemma contains_box_trans u v w :
  Box.contains (Some u) (Some (Box.OfBox v)) = true ->
  Box.contains (Some v) (Some (Box.OfBox w)) = true ->
  Box.contains (Some u) (Some (Box.OfBox w)) = true.
Proof. box_tests; intros; rank_all. Qed.

Lemma contains_box_coordinate u v p :
  Box.contains (Some u) (Some (Box.OfBox v)) = true ->
  Box.contains (Some v) (Some (Box.OfCoordinate p)) = true ->
  Box.contains (Some u) (Some (Box.OfCoordinate p)) = true.
Proof. box_tests; intros; rank_all. Qed.

(** X14: On binary64, [Box.contains] orders the boxes whose fields are
    numbers: a box contains itself exactly when none of its fields is NaN,
    containment is transitive, and a box contains the coordinates of the
    boxes it contains; with a [null] argument the answer is false. *)
Theorem Box_contains_preorder u v w p (o : option (Box.other float)) :
  (Box.contains (Some u) (Some (Box.OfBox u)) = true <->
   Binary64.numbers (Box.toJSON u) = true) /\
  (Box.contains (Some u) (Some (Box.OfBox v)) = true ->
   Box.contains (Some v) (Some (Box.OfBox w)) = true ->
   Box.contains (Some u) (Some (Box.OfBox w)) = true) /\
  (Box.contains (Some u) (Some (Box.OfBox v)) = true ->
   Box.contains (Some v) (Some (Box.OfCoordinate p)) = true ->
   Box.contains (Some u) (Some (Box.OfCoordinate p)) = true) /\
  Box.contains None o = false /\
  Box.contains (Some u) None = false.
Proof.
  split; [apply contains_itself |].
  split; [apply contains_box_trans |].
  split; [apply contains_box_coordinate |].
  split; reflexivity.
Qed.

Lemma Box_contains_preorder_witness :
  Box.contains (Some (Box.mk 0 10 10 0)%float)
               (Some (Box.OfCoordinate (Coordinate.mk 3 3)%float)) = true.
Proof.
  apply (proj1 (proj2 (proj2 (Box_contains_preorder (Box.mk 0 10 10 0)%float
                                (Box.mk 2 8 8 2)%float (Box.mk 3 4 4 3)%float
                                (Coordinate.mk 3 3)%float None))));
    vm_compute; reflexivity.
Defined.

(** X12: On binary64, for two boxes whose fields are numbers,
    [Box.prototype.expandToInclude] leaves in the receiver the least box
    that contains both: its fields are numbers, it contains the receiver and
    the argument, and every box that contains both contains it. *)
Theorem expandToInclude_least u v :
  Binary64.numbers (Box.toJSON u) = true ->
  Binary64.numbers (Box.toJSON v) = true ->
  Binary64.numbers (Box.toJSON (Box.expandToInclude u v)) = true /\
  Box.contains (Some (Box.expandToInclude u v)) (Some (Box.OfBox u)) = true /\
  Box.contains (Some (Box.expandToInclude u v)) (Some (Box.OfBox v)) = true /\
  (forall w, Box.contains (Some w) (Some (Box.OfBox u)) = true ->
             Box.contains (Some w) (Some (Box.OfBox v)) = true ->
             Box.contains (Some w) (Some (Box.OfBox (Box.expandToInclude u v)))
             = true).
Proof.
  intros Hu Hv.
  split; [| split; [| split]]; [| | | intros w Hwu Hwv];
    box_tests; rank_all.
Qed.

Lemma expandToInclude_least_witness :
  Box.contains (Some (Box.mk 0 20 20 0)%float)
    (Some (Box.OfBox (Box.expandToInclude (Box.mk 0 10 10 0)%float
                                          (Box.mk 5 15 15 5)%float))) = true.
Proof.
  apply (proj2 (proj2 (proj2 (expandToInclude_least (Box.mk 0 10 10 0)%float
                                (Box.mk 5 15 15 5)%float eq_refl eq_refl)))
           (Box.mk 0 20 20 0)%float);
    vm_compute; reflexivity.
Defined.

(** One turn of the loop of [Box.boundingBox]. *)
Lemma boundingBox_step box q :
  Binary64.numbers (Box.toJSON box) = true ->
  Binary64.numbers (Coordinate.toJSON q) = true ->
  let box1 :=
    Box.mk (num_min (Box.top box) (Coordinate.y q))
           (num_max (Box.right box) (Coordinate.x q))
           (num_max (Box.bottom box) (Coordinate.y q))
           (num_min (Box.left box) (Coordinate.x q)) in
  Binary64.numbers (Box.toJSON box1) = true /\
  Box.contains (Some box1) (Some (Box.OfBox box)) = true /\
  Box.contains (Some box1) (Some (Box.OfCoordinate q)) = true /\
  (forall w, Box.contains (Some w) (Some (Box.OfBox box)) = true ->
             Box.contains (Some w) (Some (Box.OfCoordinate q)) = true ->
             Box.contains (Some w) (Some (Box.OfBox box1)) = true).
Proof.
  intros Hb Hq box1. subst box1.
  split; [| split; [| split]]; [| | | intros w Hwb Hwq];
    box_tests; rank_all.
Qed.

(** The loop of [Box.boundingBox], from any starting box. *)
Lemma boundingBox_fold (rest : list (Coordinate.t float)) box0 :
  Binary64.numbers (Box.toJSON box0) = true ->
  Forall (fun p => Binary64.numbers (Coordinate.toJSON p) = true) rest ->
  let res :=
    fold_left
      (fun box coord =>
         Box.mk (num_min (Box.top box) (Coordinate.y coord))
                (num_max (Box.right box) (Coordinate.x coord))
                (num_max (Box.bottom box) (Coordinate.y coord))
                (num_min (Box.left box) (Coordinate.x coord)))
      rest box0 in
  Binary64.numbers (Box.toJSON res) = true /\
  Box.contains (Some res) (Some (Box.OfBox box0)) = true /\
  (forall p, In p rest ->
     Box.contains (Some res) (Some (Box.OfCoordinate p)) = true) /\
  (forall w, Box.contains (Some w) (Some (Box.OfBox box0)) = true ->
     (forall p, In p rest ->
        Box.contains (Some w) (Some (Box.OfCoordinate p)) = true) ->
     Box.contains (Some w) (Some (Box.OfBox res)) = true).
Proof.
  intros Hb Hrest. revert box0 Hb.
  induction Hrest as [|q rest Hq Hrest IH]; intros box0 Hb; cbn [fold_left].
  - split; [exact Hb |].
    split; [apply contains_itself, Hb |].
    split; [intros p [] |]. auto.
  - destruct (boundingBox_step box0 q Hb Hq) as (Hn1 & H10 & H1q & Hleast1).
    set (box1 := Box.mk _ _ _ _) in *.
    destruct (IH box1 Hn1) as (Hn & Hext & Hin & Hleast). clear IH.
    set (res := fold_left _ rest box1) in *.
    split; [exact Hn |]. split; [| split].
    + exact (contains_box_trans res box1 box0 Hext H10).
    + intros p [<- | Hp]; [| auto].
      exact (contains_box_coordinate res box1 q Hext H1q).
    + intros w Hw0 Hwp. apply Hleast; [| intros p Hp; apply Hwp; right; exact Hp].
      apply Hleast1; [exact Hw0 |]. apply Hwp. left. reflexivity.
Qed.

(** X13: [Box.boundingBox] fails without arguments.  On binary64, for
    coordinates whose fields are numbers, it returns the least box that
    contains every coordinate passed: its fields are numbers, it contains
    each coordinate, and every box that contains them all contains it. *)
Theorem boundingBox_least (arguments : list (Coordinate.t float)) :
  Forall (fun p => Binary64.numbers (Coordinate.toJSON p) = true) arguments ->
  match Box.boundingBox arguments with
  | None => arguments = []
  | Some box =>
      arguments <> [] /\
      Binary64.numbers (Box.toJSON box) = true /\
      (forall p, In p arguments ->
         Box.contains (Some box) (Some (Box.OfCoordinate p)) = true) /\
      (forall w,
         (forall p, In p arguments ->
            Box.contains (Some w) (Some (Box.OfCoordinate p)) = true) ->
         Box.contains (Some w) (Some (Box.OfBox box)) = true)
  end.
Proof.
  intros Hargs. destruct arguments as [|first rest]; [reflexivity |].
  apply Forall_cons_iff in Hargs as [Hfirst Hrest].
  unfold Box.boundingBox.
  set (box0 := Box.mk (Coordinate.y first) _ _ _).
  assert (Hb0 : Binary64.numbers (Box.toJSON box0) = true).
  { subst box0. box_tests. rank_all. }
  assert (H0f : Box.contains (Some box0) (Some (Box.OfCoordinate first)) = true).
  { subst box0. box_tests. rank_all. }
  assert (Hw0 : forall w,
            Box.contains (Some w) (Some (Box.OfCoordinate first)) = true ->
            Box.contains (Some w) (Some (Box.OfBox box0)) = true).
  { intros w Hw. subst box0. box_tests. rank_all. }
  destruct (boundingBox_fold rest box0 Hb0 Hrest) as (Hn & Hext & Hin & Hleast).
  set (res := fold_left _ rest box0) in *.
  split; [discriminate |]. split; [exact Hn |]. split.
  - intros p [<- | Hp]; [| auto].
    exact (contains_box_coordinate res box0 first Hext H0f).
  - intros w Hw. apply Hleast; [| intros p Hp; apply Hw; right; exact Hp].
    apply Hw0, Hw. left. reflexivity.
Qed.

Lemma boundingBox_least_witness :
  match Box.boundingBox [Coordinate.mk 1 5; Coordinate.mk 3 2;
                         Coordinate.mk (-1) 4]%float with
  | Some box =>
      Box.contains (Some (Box.mk 2 3 5 (-1))%float) (Some (Box.OfBox box)) = true
  | None => False
  end.
Proof.
  pose proof (boundingBox_least [Coordinate.mk 1 5; Coordinate.mk 3 2;
                                 Coordinate.mk (-1) 4]%float) as Hb.
  destruct (Box.boundingBox _) as [box|].
  - destruct Hb as (_ & _ & _ & Hleast).
    + repeat constructor.
    + apply Hleast.
      intros p [<- | [<- | [<- | []]]]; vm_compute; reflexivity.
  - exfalso. discriminate Hb. repeat constructor.
Defined.

End Binary64Boxes.

(** ** Coordinates and sizes on binary64 *)

Section Binary64Sizes.
Implicit Types (a b lo hi : Coordinate.t float) (s t u : Size.t float).

(** [v || 0] keeps a number other than zero and puts [0] for NaN, and for
    [-0]. *)
Lemma or_zero_rank (v : float) :
  Binary64.rank (Coordinate.or_zero (Some v))
  = match Binary64.rank v with Some z => Some z | None => Some 0%Z end.
Proof.
  unfold Coordinate.or_zero. rewrite truthy_rank.
  destruct (Binary64.rank v) as [z|] eqn:Hv; [| apply rank_zero].
  destruct (Z.eqb_spec z 0) as [-> | Hz]; cbn [negb];
    [apply rank_zero | exact Hv].
Qed.

(** X19: On binary64, for coordinates whose fields are numbers, the static
    [Coordinate.clamp(a, min, max)] and the method [a.clamp(min, max)]
    return coordinates that are equal for [==]; the result never exceeds
    [max]; it stays at or above [min] when [min] does not exceed [max]; it
    is [a], for [==], when [a] is within the bounds; and clamping twice
    changes nothing. *)
Theorem clamp_bounds a lo hi :
  Binary64.numbers (Coordinate.toJSON a) = true ->
  Binary64.numbers (Coordinate.toJSON lo) = true ->
  Binary64.numbers (Coordinate.toJSON hi) = true ->
  let c := Coordinate.clamp a lo hi in
  ((Coordinate.x c =? Coordinate.x (Coordinate.prototype_clamp a lo hi)) = true /\
  (Coordinate.y c =? Coordinate.y (Coordinate.prototype_clamp a lo hi)) = true /\
  (Coordinate.x c <=? Coordinate.x hi) = true /\
  (Coordinate.y c <=? Coordinate.y hi) = true /\
  ((Coordinate.x lo <=? Coordinate.x hi) = true ->
     (Coordinate.x lo <=? Coordinate.x c) = true) /\
  ((Coordinate.y lo <=? Coordinate.y hi) = true ->
     (Coordinate.y lo <=? Coordinate.y c) = true) /\
  ((Coordinate.x lo <=? Coordinate.x a) = true ->
   (Coordinate.x a <=? Coordinate.x hi) = true ->
     (Coordinate.x c =? Coordinate.x a) = true) /\
  ((Coordinate.y lo <=? Coordinate.y a) = true ->
   (Coordinate.y a <=? Coordinate.y hi) = true ->
     (Coordinate.y c =? Coordinate.y a) = true) /\
  (Coordinate.x (Coordinate.clamp c lo hi) =? Coordinate.x c) = true /\
  (Coordinate.y (Coordinate.clamp c lo hi) =? Coordinate.y c) = true)%float.
Proof.
  intros Ha Hlo Hhi c. subst c.
  unfold Coordinate.clamp, Coordinate.prototype_clamp, Coordinate.new,
    Coordinate.toJSON, Binary64.numbers in *.
  cbn [forallb Coordinate.x Coordinate.y] in *.
  float_ops.
  repeat rewrite ?leb_rank, ?eqb_rank, ?or_zero_rank, ?float_max_rank,
    ?float_min_rank.
  rank_all.
Qed.

Lemma clamp_bounds_witness :
  (Coordinate.x (Coordinate.clamp (Coordinate.mk 15 (-5)) (Coordinate.mk 0 0)
                                  (Coordinate.mk 10 10))
   <=? Coordinate.x (Coordinate.mk 10 10))%float = true.
Proof.
  apply (proj1 (proj2 (proj2 (clamp_bounds (Coordinate.mk 15 (-5))%float
           (Coordinate.mk 0 0)%float (Coordinate.mk 10 10)%float
           eq_refl eq_refl eq_refl)))).
Defined.

(** X20: On binary64, for a coordinate whose fields are numbers and a box
    with [left <= right] and [top <= bottom], the coordinate clamped between
    the corners of the box,
    [Coordinate.clamp(p, box.topLeft(), box.bottomRight())], is contained in
    the box; and the box contains [p] exactly when clamping leaves [p] as it
    is, for [==]. *)
Theorem clamp_into_box (u : Box.t float) (p : Coordinate.t float) :
  Binary64.numbers (Coordinate.toJSON p) = true ->
  (Box.left u <=? Box.right u)%float = true ->
  (Box.top u <=? Box.bottom u)%float = true ->
  let c := Coordinate.clamp p (Box.topLeft u) (Box.bottomRight u) in
  Box.contains (Some u) (Some (Box.OfCoordinate c)) = true /\
  (Box.contains (Some u) (Some (Box.OfCoordinate p)) = true <->
   (Coordinate.x c =? Coordinate.x p)%float = true /\
   (Coordinate.y c =? Coordinate.y p)%float = true).
Proof.
  intros Hp Hx Hy c. subst c.
  unfold Coordinate.clamp, Box.topLeft, Box.bottomRight, Coordinate.new,
    Box.contains, Coordinate.toJSON, Binary64.numbers in *.
  cbn [forallb Coordinate.x Coordinate.y] in *.
  float_ops.
  repeat rewrite ?leb_rank, ?eqb_rank, ?or_zero_rank, ?float_max_rank,
    ?float_min_rank, ?is_nan_rank in *.
  split; [| split]; rank_all.
Qed.

Lemma clamp_into_box_witness :
  Box.contains (Some (Box.mk 0 10 10 0)%float)
    (Some (Box.OfCoordinate
             (Coordinate.clamp (Coordinate.mk 13 (-4))%float
                (Box.topLeft (Box.mk 0 10 10 0)%float)
                (Box.bottomRight (Box.mk 0 10 10 0)%float)))) = true.
Proof.
  apply (proj1 (clamp_into_box (Box.mk 0 10 10 0)%float
                  (Coordinate.mk 13 (-4))%float eq_refl eq_refl eq_refl)).
Defined.

(** The definitions of size.js that only compare, unfolded. *)
Ltac size_tests :=
  unfold Size.fitsInside, Size.equals, Size.getShortest, Size.getLongest,
    Size.toJSON, Binary64.numbers in *;
  cbn [forallb Size.width Size.height] in *.

(** X22: On binary64, the shortest side of a size is at most the longest
    exactly when neither the width nor the height is NaN; each is then one
    of the two sides, for [==]. *)
Theorem size_measures s :
  ((Size.getShortest s <=? Size.getLongest s)%float = true <->
   Binary64.numbers (Size.toJSON s) = true) /\
  (Binary64.numbers (Size.toJSON s) = true ->
   ((Size.getShortest s =? Size.width s) = true /\
    (Size.getLongest s =? Size.height s) = true) \/
   ((Size.getShortest s =? Size.height s) = true /\
    (Size.getLongest s =? Size.width s) = true))%float.
Proof.
  split; [split |]; size_tests; intros.
  - rank_all.
  - rank_all.
  - float_ops.
    repeat rewrite ?leb_rank, ?ltb_rank, ?eqb_rank, ?is_nan_rank,
      ?float_max_rank, ?float_min_rank in *.
    destruct (Binary64.rank (Size.width s)) as [w|]; [| discriminate].
    destruct (Binary64.rank (Size.height s)) as [h|]; [| discriminate].
    destruct (Z.le_gt_cases w h); [left | right]; split; lia.
Qed.

Lemma size_measures_witness :
  ((Size.getShortest (Size.mk 4 3) =? Size.height (Size.mk 4 3)) = true /\
   (Size.getLongest (Size.mk 4 3) =? Size.width (Size.mk 4 3)) = true)%float.
Proof.
  destruct (proj2 (size_measures (Size.mk 4 3)%float) eq_refl) as [[H _] | H].
  - vm_compute in H. discriminate H.
  - exact H.
Defined.

(** X23: On binary64, [fitsInside] orders the sizes whose fields are
    numbers: a size fits inside itself exactly when neither field is NaN,
    fitting is transitive, and two sizes that fit inside one another are
    equal for [Size.equals]. *)
Theorem fitsInside_order s t u (l l' : positive) :
  (Size.fitsInside s s = true <-> Binary64.numbers (Size.toJSON s) = true) /\
  (Size.fitsInside s t = true -> Size.fitsInside t u = true ->
     Size.fitsInside s u = true) /\
  (Size.fitsInside s t = true -> Size.fitsInside t s = true ->
     Size.equals (Some (l, s)) (Some (l', t)) = true).
Proof.
  split; [split |]; [| | split]; size_tests; intros;
    try destruct (same_reference _ _); try reflexivity; rank_all.
Qed.

Lemma fitsInside_order_witness :
  Size.fitsInside (Size.mk 2 3)%float (Size.mk 6 7)%float = true.
Proof.
  apply (proj1 (proj2 (fitsInside_order (Size.mk 2 3)%float (Size.mk 4 5)%float
                         (Size.mk 6 7)%float 1%positive 2%positive)));
    vm_compute; reflexivity.
Defined.

End Binary64Sizes.

(** ** Equality of objects *)

Section Equals.

(** X28: The four [equals] answer true for one reference taken twice,
    whatever the fields, NaN included, and for two [null]s; false for
    [null] against an object; and for two objects at different references
    they compare field by field with [==].  On binary64 an object is
    therefore equal to itself and, when a field is NaN, to no other object,
    not even to its clone. *)
Theorem equals_fields :
  (forall (N : Type) (HN : Number N) (l l' : positive)
          (r r' : Rect.t N) (u u' : Box.t N) (s s' : Size.t N)
          (a b : Coordinate.t N),
     (Rect.equals (Some (l, r)) (Some (l, r)) = true /\
      Box.equals (Some (l, u)) (Some (l, u)) = true /\
      Size.equals (Some (l, s)) (Some (l, s)) = true /\
      Coordinate.equals (Some (l, a)) (Some (l, a)) = true) /\
     (Rect.equals (N := N) None None = true /\
      Rect.equals None (Some (l, r)) = false /\
      Rect.equals (Some (l, r)) None = false /\
      Box.equals None (Some (l, u)) = false /\
      Box.equals (Some (l, u)) None = false /\
      Size.equals None (Some (l, s)) = false /\
      Size.equals (Some (l, s)) None = false /\
      Coordinate.equals None (Some (l, a)) = false /\
      Coordinate.equals (Some (l, a)) None = false) /\
     (l <> l' ->
      Rect.equals (Some (l, r)) (Some (l', r'))
      = (Rect.left r ==? Rect.left r') && (Rect.width r ==? Rect.width r') &&
        (Rect.top r ==? Rect.top r') && (Rect.height r ==? Rect.height r') /\
      Box.equals (Some (l, u)) (Some (l', u'))
      = (Box.top u ==? Box.top u') && (Box.right u ==? Box.right u') &&
        (Box.bottom u ==? Box.bottom u') && (Box.left u ==? Box.left u') /\
      Size.equals (Some (l, s)) (Some (l', s'))
      = (Size.width s ==? Size.width s') && (Size.height s ==? Size.height s') /\
      Coordinate.equals (Some (l, a)) (Some (l', b))
      = (Coordinate.x a ==? Coordinate.x b) &&
        (Coordinate.y a ==? Coordinate.y b)))%num /\
  (forall (l l' : positive) (r : Rect.t float) (s : Size.t float),
     l <> l' ->
     Rect.equals (Some (l, r)) (Some (l', Rect.clone r))
       = Binary64.numbers (Rect.toJSON r) /\
     Size.equals (Some (l, s)) (Some (l', Size.clone s))
       = Binary64.numbers (Size.toJSON s)).
Proof.
  split.
  - intros N HN l l' r r' u u' s s' a b.
    unfold Rect.equals, Box.equals, Size.equals, Coordinate.equals,
      same_reference.
    rewrite Pos.eqb_refl. split; [repeat split |]. split; [repeat split |].
    intros Hl. apply Pos.eqb_neq in Hl. rewrite Hl. repeat split.
  - intros l l' r s Hl.
    unfold Rect.equals, Size.equals, same_reference.
    apply Pos.eqb_neq in Hl. rewrite Hl.
    unfold Rect.clone, Size.clone, Rect.toJSON, Size.toJSON, Binary64.numbers.
    cbn [forallb Rect.left Rect.top Rect.width Rect.height
         Size.width Size.height]. float_ops.
    repeat rewrite ?eqb_rank, ?is_nan_rank.
    destruct (Binary64.rank (Rect.left r)), (Binary64.rank (Rect.top r)),
      (Binary64.rank (Rect.width r)), (Binary64.rank (Rect.height r)),
      (Binary64.rank (Size.width s)), (Binary64.rank (Size.height s));
      rewrite ?Z.eqb_refl; split; reflexivity.
Qed.

Lemma equals_fields_witness :
  Rect.equals (Some (1%positive, Rect.mk PrimFloat.nan 0 1 1)%float)
              (Some (2%positive, Rect.clone (Rect.mk PrimFloat.nan 0 1 1)%float))
  = Binary64.numbers (Rect.toJSON (Rect.mk PrimFloat.nan 0 1 1)%float).
Proof.
  apply (proj1 (proj2 equals_fields 1%positive 2%positive
                  (Rect.mk PrimFloat.nan 0 1 1)%float (Size.mk 1 1)%float
                  ltac:(discriminate))).
Defined.

End Equals.

(** ** Padding *)

Section Padding.

Lemma add_zero_rank (x : float) :
  Binary64.rank (x + PrimFloat.zero)%float = Binary64.rank x.
Proof.
  unfold Binary64.rank. rewrite add_spec.
  replace (Prim2SF PrimFloat.zero) with (S754_zero false)
    by (vm_compute; reflexivity).
  destruct (Prim2SF x) as [[|] | [|] | | s m e]; reflexivity.
Qed.

(** X26: On binary64, [Box.intersectsWithPadding] with the padding [0] is
    [Box.intersects], for every box, NaN and infinite edges included;
    whatever the numbers are, it does not depend on the order of the
    boxes. *)
Theorem intersectsWithPadding_laws :
  (forall u v : Box.t float,
     Box.intersectsWithPadding u v PrimFloat.zero = Box.intersects u v) /\
  (forall (N : Type) (HN : Number N) (u v : Box.t N) (padding : N),
     Box.intersectsWithPadding u v padding
     = Box.intersectsWithPadding v u padding).
Proof.
  split.
  - intros u v. unfold Box.intersectsWithPadding, Box.intersects. float_ops.
    rewrite !leb_rank, !add_zero_rank. reflexivity.
  - intros N HN u v padding. unfold Box.intersectsWithPadding.
    repeat match goal with
      | |- context [num_leb ?x ?y] => destruct (num_leb x y)
      end; reflexivity.
Qed.

End Padding.

(** ** From a box to a rectangle and back *)

Section ExactBoxRoundTrip.
Import Binary64.
Local Open Scope R_scope.

(** X15: Whatever the numbers are, [Rect.createFromBox(box).toBox()] has the
    top and the left of [box], the right edge [left + (right - left)] and
    the bottom edge [top + (bottom - top)], and the area of
    [Rect.createFromBox(box)] is [box.area()].  On binary64, when the two
    differences and the two sums are not rounded, the box that comes back
    has the values of [box] and [Box.equals] holds of the two. *)
Theorem toBox_createFromBox :
  (forall (N : Type) (HN : Number N) (u : Box.t N),
     Rect.toBox (Rect.createFromBox u)
     = Box.mk (Box.top u) (Box.left u + (Box.right u - Box.left u))
              (Box.top u + (Box.bottom u - Box.top u)) (Box.left u) /\
     Rect.area (Rect.createFromBox u) = Box.area u)%num /\
  (forall (u : Box.t float) (l l' : positive),
     Exact.box_round_trip u = true ->
     Exact.box (Rect.toBox (Rect.createFromBox u)) = Exact.box u /\
     Box.equals (Some (l, Rect.toBox (Rect.createFromBox u))) (Some (l', u))
     = true).
Proof.
  split; [intros N HN u; split; reflexivity |].
  intros u l l'. unfold Exact.box_round_trip. rewrite !andb_true_iff.
  intros [[[Hw Hh] Hr] Hb].
  apply exact_sub_real in Hw as (Fr & Fl & _ & Rw).
  apply exact_sub_real in Hh as (Fb & Ft & _ & Rh).
  apply exact_add_real in Hr as (_ & _ & Fr' & Rr).
  apply exact_add_real in Hb as (_ & _ & Fb' & Rb).
  rewrite Rw in Rr. rewrite Rh in Rb.
  assert (Rr' : real (Box.left u + (Box.right u - Box.left u))%float
                = real (Box.right u)) by (rewrite Rr; ring).
  assert (Rb' : real (Box.top u + (Box.bottom u - Box.top u))%float
                = real (Box.bottom u)) by (rewrite Rb; ring).
  unfold Rect.toBox, Rect.createFromBox, Exact.box, Box.equals.
  cbn [Rect.left Rect.top Rect.width Rect.height
       Box.top Box.right Box.bottom Box.left]. float_ops.
  split; [rewrite Rr', Rb'; reflexivity |].
  destruct (same_reference _ _); [reflexivity |].
  rewrite (eqb_real _ _ Ft Ft), (eqb_real _ _ Fl Fl),
    (eqb_real _ _ Fr' Fr), (eqb_real _ _ Fb' Fb), Rr', Rb'.
  rewrite !(proj2 (Reqb_true _ _) eq_refl). reflexivity.
Qed.

Lemma toBox_createFromBox_witness :
  Exact.box (Rect.toBox (Rect.createFromBox (Box.mk 4 13 24 3)%float))
    = Exact.box (Box.mk 4 13 24 3)%float /\
  Box.equals
    (Some (1%positive, Rect.toBox (Rect.createFromBox (Box.mk 4 13 24 3)%float)))
    (Some (2%positive, (Box.mk 4 13 24 3)%float)) = true.
Proof.
  apply (proj2 toBox_createFromBox (Box.mk 4 13 24 3)%float 1%positive 2%positive).
  vm_compute. reflexivity.
Defined.

End ExactBoxRoundTrip.

(** ** Sizes and coordinates *)

Section SizeLaws.
Local Open Scope R_scope.
Implicit Types s t u : Size.t R.

(** X24: A size and a coordinate convert into one another without loss in exact
    arithmetic.  On binary64 the constructor of [Coordinate] puts [0] for a
    NaN, so the round trip of a size of width NaN has width [0]. *)
Theorem size_coordinate_round_trip :
  (forall s, Size.createFromCoordinate (Size.toCoordinate s) = s) /\
  (forall c : Coordinate.t R,
     Size.toCoordinate (Size.createFromCoordinate c) = c) /\
  (forall h : PrimFloat.float,
     Size.createFromCoordinate (Size.toCoordinate (Size.mk PrimFloat.nan h))
     = Size.mk 0%float (Coordinate.or_zero (Some h))).
Proof.
  split; [| split].
  - intros s. unfold Size.toCoordinate. rewrite new_real. destruct s; reflexivity.
  - intros c. unfold Size.toCoordinate, Size.createFromCoordinate. cbn.
    rewrite new_real. destruct c; reflexivity.
  - intros h. reflexivity.
Qed.

End SizeLaws.

(** ** Boxes that meet *)

Section BoxIntersects.
Local Open Scope R_scope.
Implicit Types u v : Box.t R.

Lemma Box_intersects_true u v :
  Box.intersects u v = true <->
    Box.left u <= Box.right v /\ Box.left v <= Box.right u /\
    Box.top u <= Box.bottom v /\ Box.top v <= Box.bottom u.
Proof.
  unfold Box.intersects. real_ops. rewrite !andb_true_iff, !Rleb_true. tauto.
Qed.

(** X25: Two boxes with [left <= right] and [top <= bottom] meet, for
    [Box.intersects], exactly when some coordinate is contained in both. *)
Theorem Box_intersects_common_point u v :
  Box.left u <= Box.right u -> Box.top u <= Box.bottom u ->
  Box.left v <= Box.right v -> Box.top v <= Box.bottom v ->
  Box.intersects u v = true <->
    exists p, Box.contains (Some u) (Some (Box.OfCoordinate p)) = true /\
              Box.contains (Some v) (Some (Box.OfCoordinate p)) = true.
Proof.
  intros Hu Hu' Hv Hv'. rewrite Box_intersects_true. split.
  - intros (? & ? & ? & ?).
    exists (Coordinate.mk (Rmax (Box.left u) (Box.left v))
                          (Rmax (Box.top u) (Box.top v))).
    rewrite !contains_coordinate. cbn. unfold Rmax.
    repeat destruct Rle_dec; lra.
  - intros (p & Hpu & Hpv). apply contains_coordinate in Hpu, Hpv. lra.
Qed.

Lemma Box_intersects_common_point_witness :
  Box.intersects (Box.mk 0 10 10 0) (Box.mk 5 15 15 5) = true <->
    exists p,
      Box.contains (Some (Box.mk 0 10 10 0)) (Some (Box.OfCoordinate p)) = true /\
      Box.contains (Some (Box.mk 5 15 15 5)) (Some (Box.OfCoordinate p)) = true.
Proof.
  apply (Box_intersects_common_point (Box.mk 0 10 10 0) (Box.mk 5 15 15 5));
    cbn; lra.
Defined.

End BoxIntersects.

(** * Runs on binary64

    The scenarios of the specification and the operands used above,
    evaluated on JavaScript's own numbers. *)

Section Binary64Runs.
Local Open Scope float_scope.

Example intersection_scenario :
  Rect.intersection (Rect.mk 0 0 10 10) (Rect.mk 5 5 10 10)
  = Some (Rect.mk 5 5 5 5).
Proof. vm_compute. reflexivity. Qed.

Example difference_scenario :
  Rect.difference (Rect.mk 0 0 10 10) (Rect.mk 5 5 10 10)
  = [Rect.mk 0 0 10 5; Rect.mk 0 5 5 5].
Proof. vm_compute. reflexivity. Qed.

Example difference_four_bands :
  Rect.difference (Rect.mk 0 0 10 10) (Rect.mk 2 2 3 3)
  = [Rect.mk 0 0 10 2; Rect.mk 0 5 10 5; Rect.mk 0 2 2 3; Rect.mk 5 2 5 3].
Proof. vm_compute. reflexivity. Qed.

Example negative_extent_operand_binary64 :
  Rect.intersects (Rect.mk 0 0 10 10) (Rect.mk 5 5 (-2) (-2)) = true /\
  Rect.intersection (Rect.mk 0 0 10 10) (Rect.mk 5 5 (-2) (-2)) = None /\
  Rect.difference (Rect.mk 0 0 10 10) (Rect.mk 5 5 (-2) (-2))
  = [Rect.mk 0 0 10 10].
Proof. vm_compute. repeat split; reflexivity. Qed.

Example touching_rectangles_binary64 :
  Rect.intersection (Rect.mk 0 0 10 10) (Rect.mk 10 0 5 5)
  = Some (Rect.mk 10 0 0 5) /\
  Rect.difference (Rect.mk 0 0 10 10) (Rect.mk 10 0 5 5)
  = [Rect.mk 0 0 10 10].
Proof. vm_compute. split; reflexivity. Qed.

(** The store after [Rect.difference(a, b)]: the operands at 1 and 2 as they
    were, the intersection at 3, the two bands at 4 and 5. *)
Example difference_run_binary64 :
  match RectObj.difference 1%positive 2%positive
          (<[1%positive := Rect.mk 0 0 10 10]>
             {[2%positive := Rect.mk 5 5 10 10]}) with
  | Some (ls, st') =>
      ls = [4%positive; 5%positive] /\
      map (fun l => st' !! l) [1; 2; 3; 4; 5]%positive
      = [Some (Rect.mk 0 0 10 10); Some (Rect.mk 5 5 10 10);
         Some (Rect.mk 5 5 5 5); Some (Rect.mk 0 0 10 5);
         Some (Rect.mk 0 5 5 5)]
  | None => False
  end.
Proof. vm_compute. split; reflexivity. Qed.

Example distance_scenario :
  Box.distance (Box.mk 0 10 10 0) (Coordinate.mk 13 14) = 5 /\
  Box.contains (Some (Box.mk 0 10 10 0))
               (Some (Box.OfCoordinate (Coordinate.mk 13 14))) = false /\
  Box.distance (Box.mk 0 10 10 0) (Coordinate.mk 10 3) = 0 /\
  Box.contains (Some (Box.mk 0 10 10 0))
               (Some (Box.OfCoordinate (Coordinate.mk 10 3))) = true.
Proof. vm_compute. repeat split; reflexivity. Qed.

Example normalize_default_coordinate :
  Coordinate.normalize (Coordinate.new None None)
  = Coordinate.mk PrimFloat.nan PrimFloat.nan.
Proof. vm_compute. reflexivity. Qed.

Example boundingBox_scenario :
  Box.boundingBox [Coordinate.mk 1 5; Coordinate.mk 3 2; Coordinate.mk (-1) 4]
  = Some (Box.mk 2 3 5 (-1)) /\
  Box.boundingBox (N := PrimFloat.float) [] = None.
Proof. vm_compute. split; reflexivity. Qed.

Example boundingRect_scenario :
  Rect.boundingRect (Some (Rect.mk 0 0 10 10)) (Some (Rect.mk 5 5 10 10))
  = Some (Rect.mk 0 0 15 15).
Proof. vm_compute. reflexivity. Qed.

End Binary64Runs.
